(** * signbank-video: the shadow storage, poster derivation and version chain
    of [video/models.py]

    The development embeds the methods of [VideoPosterMixin],
    [GlossVideoStorage] and [GlossVideo] as functions over an explicit
    program state (the in-memory record, the file system, the persisted
    metadata row and a log of the side-effecting calls), and proves the
    properties of the naming scheme, of the poster derivation and of
    [reversion]. *)

From Stdlib Require Import ZArith Lia Ascii String List Bool.
From stdpp Require Import base gmap strings list fin_maps.

Local Open Scope string_scope.
#[local] Arguments String.append !_ _ : simpl nomatch.

(** ** Python [str] operations used by [posixpath] *)

Module PyStr.

  (** [len(s)] *)
Definition len (s : string) : Z := Z.of_nat (String.length s).

  (** The first [n] characters, and what is left after them. *)
Fixpoint take (n : nat) (s : string) : string :=
    match n, s with
    | S n', String a s' => String a (take n' s')
    | _, _ => EmptyString
    end.

Fixpoint drop (n : nat) (s : string) : string :=
    match n, s with
    | S n', String _ s' => drop n' s'
    | _, _ => s
    end.

  (** A slice bound as Python normalises it: a negative bound counts from the
      end, and every bound is clamped to [0 .. len s]. *)
Definition bound (i : Z) (s : string) : nat :=
    Z.to_nat (if (i <? 0)%Z then Z.max 0 (len s + i) else Z.min i (len s)).

  (** [s[:i]], [s[i:]] and [s[i:j]] *)
Definition slice_to (i : Z) (s : string) : string := take (bound i s) s.
Definition slice_from (i : Z) (s : string) : string := drop (bound i s) s.
Definition slice (i j : Z) (s : string) : string :=
    take (bound j s - bound i s) (drop (bound i s) s).

  (** [s.rfind(c)] for a one-character [c]: the highest index of [c], or -1. *)
Fixpoint rfind (c : ascii) (s : string) : Z :=
    match s with
    | EmptyString => (-1)%Z
    | String a s' =>
        let r := rfind c s' in
        if (0 <=? r)%Z then (r + 1)%Z
        else if Ascii.eqb a c then 0%Z else (-1)%Z
    end.

  (** [s.startswith(c)] and [s.endswith(c)] for a one-character [c] *)
Definition startswith_char (c : ascii) (s : string) : bool :=
    match s with
    | String a _ => Ascii.eqb a c
    | EmptyString => false
    end.

Fixpoint endswith_char (c : ascii) (s : string) : bool :=
    match s with
    | EmptyString => false
    | String a EmptyString => Ascii.eqb a c
    | String _ s' => endswith_char c s'
    end.

  (** [s.endswith(suffix)] *)
Definition endswith (suffix s : string) : bool :=
    (String.length suffix <=? String.length s)%nat
    && String.eqb (drop (String.length s - String.length suffix) s) suffix.

  (** [s == c * len(s)] *)
Fixpoint all_char (c : ascii) (s : string) : bool :=
    match s with
    | EmptyString => true
    | String a s' => Ascii.eqb a c && all_char c s'
    end.

  (** [s.rstrip(c)] for a one-character [c] *)
Fixpoint rstrip (c : ascii) (s : string) : string :=
    match s with
    | EmptyString => EmptyString
    | String a s' =>
        match rstrip c s' with
        | EmptyString => if Ascii.eqb a c then EmptyString else String a EmptyString
        | r => String a r
        end
    end.

  (** [c in s] for a one-character [c] *)
Fixpoint contains (c : ascii) (s : string) : bool :=
  match s with
  | EmptyString => false
  | String a s' => Ascii.eqb a c || contains c s'
  end.

(** Membership of a character, as a proposition. *)
Fixpoint has (c : ascii) (s : string) : Prop :=
    match s with
    | EmptyString => False
    | String a s' => a = c \/ has c s'
    end.

(** [s.startswith(prefix)] *)
Fixpoint startswith (prefix s : string) : bool :=
  match prefix, s with
  | EmptyString, _ => true
  | String a prefix', String b s' => Ascii.eqb a b && startswith prefix' s'
  | String _ _, EmptyString => false
  end.

(** [old in s] *)
Fixpoint occurs (old s : string) : bool :=
  startswith old s ||
  match s with
  | EmptyString => false
  | String _ s' => occurs old s'
  end.

(** The scan of [s.replace(old, new)] for a non-empty [old], from left to
    right: [skip] counts the characters of the occurrence just replaced that
    are still to be passed over. *)
Fixpoint replace_scan (old new : string) (skip : nat) (s : string) : string :=
  match s with
  | EmptyString => EmptyString
  | String a s' =>
      match skip with
      | S k => replace_scan old new k s'
      | O =>
          if startswith old s
          then new +:+ replace_scan old new (String.length old - 1) s'
          else String a (replace_scan old new 0 s')
      end
  end.

(** With an empty [old], [new] goes before every character and at the end. *)
Fixpoint replace_empty (new s : string) : string :=
  match s with
  | EmptyString => new
  | String a s' => new +:+ String a (replace_empty new s')
  end.

(** [s.replace(old, new)]: every occurrence of [old], found from the left and
    without overlap, is replaced by [new]. *)
Definition replace (old new s : string) : string :=
  if String.eqb old "" then replace_empty new s
  else replace_scan old new 0 s.

End PyStr.

(** ** [posixpath]: [split], [join] and [splitext] *)

Module PosixPath.
Import PyStr.

Definition sep : ascii := "/"%char.
Definition extsep : ascii := "."%char.

  (** [posixpath.split]:
<<
      i = p.rfind(sep) + 1
      head, tail = p[:i], p[i:]
      if head and head != sep*len(head):
          head = head.rstrip(sep)
      return head, tail
>> *)
Definition split (p : string) : string * string :=
    let i := (rfind sep p + 1)%Z in
    let head := slice_to i p in
    let tail := slice_from i p in
    let head :=
      if negb (String.eqb head "") && negb (all_char sep head)
      then rstrip sep head else head in
    (head, tail).

  (** [posixpath.join(a, b)] with one component [b]:
<<
      path = a
      if b.startswith(sep):                   path = b
      elif not path or path.endswith(sep):    path += b
      else:                                   path += sep + b
>> *)
Definition join (a b : string) : string :=
    if startswith_char sep b then b
    else if String.eqb a "" || endswith_char sep a then a +:+ b
    else a +:+ String sep b.

  (** The loop of [genericpath._splitext] that skips the leading dots of the
      file name: it answers [true] as soon as a character other than the dot
      is found at an index in [filenameIndex .. dotIndex - 1]; [n] counts the
      indices that remain. *)
Fixpoint skip_leading_dots (n : nat) (filenameIndex : Z) (p : string) : bool :=
    match n with
    | O => false
    | S n' =>
        if negb (String.eqb (slice filenameIndex (filenameIndex + 1) p)
                            (String extsep ""))
        then true
        else skip_leading_dots n' (filenameIndex + 1)%Z p
    end.

  (** [posixpath.splitext], that is [genericpath._splitext(p, '/', None, '.')]:
<<
      sepIndex = p.rfind(sep)
      dotIndex = p.rfind(extsep)
      if dotIndex > sepIndex:
          filenameIndex = sepIndex + 1
          while filenameIndex < dotIndex:
              if p[filenameIndex:filenameIndex+1] != extsep:
                  return p[:dotIndex], p[dotIndex:]
              filenameIndex += 1
      return p, p[:0]
>> *)
Definition splitext (p : string) : string * string :=
    let sepIndex := rfind sep p in
    let dotIndex := rfind extsep p in
    if (sepIndex <? dotIndex)%Z then
      let filenameIndex := (sepIndex + 1)%Z in
      if skip_leading_dots (Z.to_nat (dotIndex - filenameIndex)) filenameIndex p
      then (slice_to dotIndex p, slice_from dotIndex p)
      else (p, slice_to 0 p)
    else (p, slice_to 0 p).

End PosixPath.

(** ** Program state and effects *)

(** The fields of a [GlossVideo] instance that the methods read and write;
    [videofile_name] is [self.videofile.name]. [version] is a Python integer,
    hence unbounded. *)
Record GlossVideo := mkGlossVideo {
  gloss_id : string;
  version : Z;
  videofile_name : string
}.

(** The exceptions that can reach a caller: [ValueError] is raised by
    [reversion] itself, the two [OSError]s by [os.rename] and [os.unlink],
    and [ToolError] stands for whatever the frame extraction may raise.
    [DatabaseError] is what [self.save()] and [self.delete()] raise when the
    metadata store refuses the write, and [AssertionError] what
    [self.delete()] raises on an instance that has no row (no primary key). *)
Inductive exn :=
| ValueError | FileNotFoundError | PermissionError | ToolError
| DatabaseError | AssertionError.

(** What the environment can refuse to change: the file at a path, or the
    metadata store. *)
Inductive resource :=
| FilePath (p : string)
| MetadataStore.

#[global] Instance resource_eq_dec : EqDecision resource.
Proof. solve_decision. Defined.

#[global] Instance resource_countable : Countable resource.
Proof.
  refine (inj_countable'
            (fun r => match r with FilePath p => inl p | MetadataStore => inr tt end)
            (fun x => match x with inl p => FilePath p | inr _ => MetadataStore end) _).
  intros []; reflexivity.
Defined.

(** One entry per call of a side-effecting primitive, logged when the call is
    made, whether or not it succeeds. *)
Inductive event :=
| EvRename (src dst : string)
| EvUnlink (path : string)
| EvExtractFrame (src dst : string)
| EvSave (r : GlossVideo)
| EvDelete.

(** Modelled from the spec: [video.convertvideo.extract_frame] is imported by
    [models.py] but is not among the sources. The spec gives it the contract
    [extract_frame(video_path, dest_path) -> success|failure], a black-box
    external tool. A call either writes the frame and reports success,
    reports failure, or (as any Python call may) raises. *)
Inductive tool_result :=
| Extracted (frame : string)
| ExtractionFailed
| ExtractionRaised.

(** The state a method runs in. [files] maps every existing path to the
    content of the regular file stored there; [protected] holds what the
    environment refuses to change: a path in it makes [os.rename] and
    [os.unlink] fail with a permission error, the metadata store in it makes
    [self.save()] and [self.delete()] fail. [row] is the persisted metadata
    row of the record ([None] before it is first saved and once it is
    deleted). *)
Record state := mkState {
  self : GlossVideo;
  files : gmap string string;
  protected : gset resource;
  row : option GlossVideo;
  trace : list event
}.

(** How a call ends: with a value, with an exception, or, for the model only,
    at the bound of a loop ([reversion_terminates] shows that [reversion]
    never does). *)
Inductive outcome (A : Type) :=
| Return (a : A)
| Raise (e : exn)
| OutOfFuel.
Arguments Return {A} a.
Arguments Raise {A} e.
Arguments OutOfFuel {A}.

(** A computation runs on a state and yields an outcome together with the
    state it leaves behind: what was mutated before an exception stays
    mutated. *)
Definition M (A : Type) : Type := state -> outcome A * state.

Definition ret {A} (a : A) : M A := fun st => (Return a, st).
Definition raise {A} (e : exn) : M A := fun st => (Raise e, st).
Definition bind {A B} (m : M A) (k : A -> M B) : M B :=
  fun st =>
    match m st with
    | (Return a, st') => k a st'
    | (Raise e, st') => (Raise e, st')
    | (OutOfFuel, st') => (OutOfFuel, st')
    end.

Notation "x <- m ;; k" := (bind m (fun x => k))
  (at level 100, m at next level, right associativity).
Notation "m ;; k" := (bind m (fun _ => k))
  (at level 100, right associativity).

(** [try: body except: pass] *)
Definition try_pass (body : M unit) : M unit :=
  fun st =>
    match body st with
    | (Raise _, st') => (Return tt, st')
    | r => r
    end.

Definition get_self : M GlossVideo := fun st => (Return (self st), st).
Definition get_files : M (gmap string string) := fun st => (Return (files st), st).

Definition set_self (g : GlossVideo) : M unit :=
  fun st => (Return tt, mkState g (files st) (protected st) (row st) (trace st)).
Definition set_files (fs : gmap string string) : M unit :=
  fun st => (Return tt, mkState (self st) fs (protected st) (row st) (trace st)).
Definition set_row (r : option GlossVideo) : M unit :=
  fun st => (Return tt, mkState (self st) (files st) (protected st) r (trace st)).
Definition log (e : event) : M unit :=
  fun st => (Return tt,
             mkState (self st) (files st) (protected st) (row st) (trace st ++ [e])).

(** [self.version = v] and [self.videofile.name = n] *)
Definition set_version (v : Z) : M unit :=
  g <- get_self ;; set_self (mkGlossVideo (gloss_id g) v (videofile_name g)).
Definition set_name (n : string) : M unit :=
  g <- get_self ;; set_self (mkGlossVideo (gloss_id g) (version g) n).

(** *** File system primitives *)

Definition path_exists (fs : gmap string string) (p : string) : bool :=
  bool_decide (is_Some (fs !! p)).

(** [os.path.exists(p)] *)
Definition os_path_exists (p : string) : M bool :=
  fun st => (Return (path_exists (files st) p), st).

(** [os.rename(src, dst)]: a missing source is an error; an existing
    destination file is replaced. *)
Definition os_rename (src dst : string) : M unit :=
  log (EvRename src dst) ;;
  fun st =>
    match files st !! src with
    | None => (Raise FileNotFoundError, st)
    | Some c =>
        if bool_decide (FilePath src ∈ protected st)
           || bool_decide (FilePath dst ∈ protected st)
        then (Raise PermissionError, st)
        else set_files (<[dst := c]> (delete src (files st))) st
    end.

(** [os.unlink(p)] *)
Definition os_unlink (p : string) : M unit :=
  log (EvUnlink p) ;;
  fun st =>
    match files st !! p with
    | None => (Raise FileNotFoundError, st)
    | Some _ =>
        if bool_decide (FilePath p ∈ protected st)
        then (Raise PermissionError, st)
        else set_files (delete p (files st)) st
    end.

(** [self.save()] of the persistence layer: the row becomes the record as it
    is in memory, unless the store refuses the write, in which case the
    exception of the store comes out and the row stays. *)
Definition model_save : M unit :=
  g <- get_self ;;
  log (EvSave g) ;;
  fun st =>
    if bool_decide (MetadataStore ∈ protected st)
    then (Raise DatabaseError, st)
    else set_row (Some g) st.

(** [self.delete()] of the persistence layer: it first refuses an instance
    that has no row (its primary key is unset), then removes the row, unless
    the store refuses the write. *)
Definition model_delete : M unit :=
  log EvDelete ;;
  fun st =>
    match row st with
    | None => (Raise AssertionError, st)
    | Some _ =>
        if bool_decide (MetadataStore ∈ protected st)
        then (Raise DatabaseError, st)
        else set_row None st
    end.

(** The [.bak] chain: [bak_chain k n] is [n] followed by [k] suffixes. *)
Fixpoint bak_chain (k : nat) (n : string) : string :=
  match k with
  | O => n
  | S k' => bak_chain k' (n +:+ ".bak")
  end.

Section Methods.
Import PyStr PosixPath.

  (** [storage.location], that is [settings.MEDIA_ROOT]. *)
Variable location : string.
  (** [self.videofile.url], computed by the framework's storage from the
      file name. *)
Variable storage_url : string -> string.
  (** The external frame extraction tool, as a function of the file system
      it sees and of its two arguments. *)
Variable frame_tool : gmap string string -> string -> string -> tool_result.

  (** [self.videofile.path]: the storage joins its location and the name
      (for the relative, normalised names the storage hands out). *)
Definition videofile_path (g : GlossVideo) : string :=
    join location (videofile_name g).

Definition videofile_url (g : GlossVideo) : string :=
    storage_url (videofile_name g).

  (** [extract_frame(src, dst)] *)
Definition extract_frame (src dst : string) : M unit :=
    log (EvExtractFrame src dst) ;;
    fs <- get_files ;;
    match frame_tool fs src dst with
    | Extracted frame => set_files (<[dst := frame]> fs)
    | ExtractionFailed => ret tt
    | ExtractionRaised => raise ToolError
    end.

  (** The extension swap both [poster_path] and [poster_url] apply:
      [root, ext = os.path.splitext(p); root + ".jpg"]. *)
Definition swap_ext (p : string) : string := fst (splitext p) +:+ ".jpg".

  (** [VideoPosterMixin.poster_path] *)
Definition poster_path (create : bool) : M (option string) :=
    g <- get_self ;;
    let poster_path := swap_ext (videofile_path g) in
    found <- os_path_exists poster_path ;;
    if negb found then
      if create then
        extract_frame (videofile_path g) poster_path ;;
        ret (Some poster_path)
      else ret None
    else ret (Some poster_path).

  (** [VideoPosterMixin.poster_url] *)
Definition poster_url : M string :=
    path <- poster_path true ;;
    g <- get_self ;;
    ret (swap_ext (videofile_url g)).

  (** [VideoPosterMixin.delete_files] *)
Definition delete_files : M unit :=
    try_pass (
      g <- get_self ;;
      os_unlink (videofile_path g) ;;
      poster_path <- poster_path false ;;
      match poster_path with
      | Some p => os_unlink p
      | None => ret tt
      end).

  (** [GlossVideoStorage.get_valid_name] *)
Definition get_valid_name (name : string) : string :=
    let (targetdir, basename) := split name in
    let path := join (slice_to 2 basename) basename in
    let result := join targetdir path in
    result.

  (** [settings.MEDIA_URL] and [settings.MEDIA_MOBILE_URL] *)
Variable MEDIA_URL : string.
Variable MEDIA_MOBILE_URL : string.

  (** [VideoPosterMixin.get_absolute_url] *)
Definition get_absolute_url (g : GlossVideo) : string := videofile_url g.

  (** [GlossVideo.get_mobile_url] *)
Definition get_mobile_url (g : GlossVideo) : string :=
  let url := get_absolute_url g in
  replace MEDIA_URL MEDIA_MOBILE_URL url.

  (** The [while] loop of [reversion]:
<<
      while os.path.exists(os.path.join(storage.location, newname)):
          self.version += 1
          newname = newname + ".bak"
>>
      with a bound on the number of iterations. *)
Fixpoint find_backup_name (fuel : nat) (fs : gmap string string)
      (version : Z) (newname : string) : option (Z * string) :=
    match fuel with
    | O => None
    | S fuel' =>
        if path_exists fs (join location newname)
        then find_backup_name fuel' fs (version + 1)%Z (newname +:+ ".bak")
        else Some (version, newname)
    end.

  (** Every iteration finds one more file, on a path longer than the ones
      before: one more iteration than there are files is enough. *)
Definition backup_fuel (fs : gmap string string) : nat := S (size fs).

  (** The common end of [reversion], from "now do the renaming" on. *)
Definition rename_and_save (newname : string) : M unit :=
    g <- get_self ;;
    os_rename (join location (videofile_name g)) (join location newname) ;;
    poster <- poster_path false ;;
    match poster with
    | Some p => os_unlink p
    | None => ret tt
    end ;;
    set_name newname ;;
    model_save.

  (** [GlossVideo.reversion] *)
Definition reversion (revert : bool) : M unit :=
    g <- get_self ;;
    if revert then
      if (version g =? 0)%Z then
        delete_files ;;
        model_delete
      else
        let (newname, bak) := splitext (videofile_name g) in
        if negb (String.eqb bak ".bak") then raise ValueError
        else
          set_version (version g - 1) ;;
          rename_and_save newname
    else
      fs <- get_files ;;
      match find_backup_name (backup_fuel fs) fs (version g) (videofile_name g) with
      | None => fun st => (OutOfFuel, st)
      | Some (v, newname) =>
          (* the loop counts [self.version] up as it goes; nothing in it
             can raise, so the record is updated once, after it *)
          set_version v ;;
          rename_and_save newname
      end.

End Methods.

(** ** Vocabulary of the statements *)

(** What [join a b] puts in front of [b]. *)
Definition join_prefix (a b : string) : string :=
  if PyStr.startswith_char PosixPath.sep b then ""
  else if String.eqb a "" || PyStr.endswith_char PosixPath.sep a then a
  else a +:+ String PosixPath.sep "".

(** The partition prefix in the words of the naming scheme: the first two
    characters of the base name, or all of it when it is shorter. *)
Definition partition_prefix (basename : string) : string :=
  match basename with
  | String a (String b _) => String a (String b "")
  | _ => basename
  end.

(** The base name under its partition directory; an empty base name is left
    as it is. *)
Definition placed (base : string) : string :=
  if String.eqb base "" then ""
  else partition_prefix base +:+ String PosixPath.sep base.


Definition is_extraction (e : event) : bool :=
  match e with EvExtractFrame _ _ => true | _ => false end.

(** The number of calls of the frame extraction in a log. *)
Definition extraction_calls (t : list event) : nat :=
  length (filter (fun e => is_extraction e = true) t).

Definition is_rename_or_save (e : event) : bool :=
  match e with EvRename _ _ | EvSave _ => true | _ => false end.

(** The state a run of [rename_and_save] leaves when its rename succeeds and
    moves the content [c]: the file is moved, the poster next to the old path
    is removed if there is one, the record carries the new name and is saved. *)
Definition renamed_state (location : string) (st : state)
    (newname c : string) : state :=
  let src := PosixPath.join location (videofile_name (self st)) in
  let dst := PosixPath.join location newname in
  let poster := swap_ext src in
  let fs := <[dst := c]> (delete src (files st)) in
  let g := mkGlossVideo (gloss_id (self st)) (version (self st)) newname in
  if path_exists fs poster
  then mkState g (delete poster fs) (protected st) (Some g)
         (trace st ++ [EvRename src dst; EvUnlink poster; EvSave g])
  else mkState g fs (protected st) (Some g)
         (trace st ++ [EvRename src dst; EvSave g]).

(** The paths the loop of [reversion] tests, in order. *)
Definition candidate (location n : string) (i : nat) : string :=
  PosixPath.join location (bak_chain i n).

(** The record with another version, the rest of the state untouched. *)
Definition at_version (v : Z) (st : state) : state :=
  mkState (mkGlossVideo (gloss_id (self st)) v (videofile_name (self st)))
    (files st) (protected st) (row st) (trace st).

(** The state [rename_and_save] is left in when its rename succeeds and the
    store then refuses the save: as [renamed_state], but for the row, which
    stays what it was. *)
Definition unsaved_state (location : string) (st : state)
    (newname c : string) : state :=
  let s := renamed_state location st newname c in
  mkState (self s) (files s) (protected s) (row st) (trace s).

(** The state with one more call in its log. *)
Definition logged (e : event) (st : state) : state :=
  mkState (self st) (files st) (protected st) (row st) (trace st ++ [e]).

Definition is_persist (e : event) : bool :=
  match e with EvSave _ | EvDelete => true | _ => false end.

Definition is_rename (e : event) : bool :=
  match e with EvRename _ _ => true | _ => false end.

(** *** A concrete installation, for the examples *)

Definition media_root : string := "/media".
Definition media_url (name : string) : string := "/static/" +:+ name.
Definition tool_ok : gmap string string -> string -> string -> tool_result :=
  fun _ _ _ => Extracted "frame".
Definition tool_failing : gmap string string -> string -> string -> tool_result :=
  fun _ _ _ => ExtractionFailed.

Definition tool_raising : gmap string string -> string -> string -> tool_result :=
  fun _ _ _ => ExtractionRaised.

(** Version 0 of [x.mp4], its file in place and nothing else. *)
Definition st_x_only : state :=
  mkState (mkGlossVideo "gloss-1" 0 "x.mp4")
    {[ "/media/x.mp4" := "video" ]} ∅
    (Some (mkGlossVideo "gloss-1" 0 "x.mp4")) [].

(** The same with an older backup already at [x.mp4.bak]. *)
Definition st_x_and_bak : state :=
  mkState (mkGlossVideo "gloss-1" 0 "x.mp4")
    (<[ "/media/x.mp4.bak" := "older" ]> {[ "/media/x.mp4" := "video" ]}) ∅
    (Some (mkGlossVideo "gloss-1" 0 "x.mp4")) [].

(** A record of version 2 whose name lacks the suffix. *)
Definition st_corrupted : state :=
  mkState (mkGlossVideo "gloss-1" 2 "x.mp4")
    {[ "/media/x.mp4" := "video" ]} ∅
    (Some (mkGlossVideo "gloss-1" 2 "x.mp4")) [].

(** A record of version 2 on [x.mp4.bak] whose file is gone. *)
Definition st_lost_backup : state :=
  mkState (mkGlossVideo "gloss-1" 2 "x.mp4.bak") ∅ ∅
    (Some (mkGlossVideo "gloss-1" 2 "x.mp4.bak")) [].

(** Version 0 of [x.mp4] whose file cannot be renamed, next to a backup. *)
Definition st_protected : state :=
  mkState (mkGlossVideo "gloss-1" 0 "x.mp4")
    {[ "/media/x.mp4" := "video" ]} {[ FilePath "/media/x.mp4" ]}
    (Some (mkGlossVideo "gloss-1" 0 "x.mp4")) [].

(** Version 0 of [x.mp4]: the video file is gone, its poster is still there. *)
Definition st_orphan_poster : state :=
  mkState (mkGlossVideo "gloss-1" 0 "x.mp4")
    {[ "/media/x.jpg" := "poster" ]} ∅
    (Some (mkGlossVideo "gloss-1" 0 "x.mp4")) [].

(** Version 1 of the same gloss, kept as [x.mp4.bak]. *)
Definition st_backed_up : state :=
  mkState (mkGlossVideo "gloss-1" 1 "x.mp4.bak")
    {[ "/media/x.mp4.bak" := "video" ]} ∅
    (Some (mkGlossVideo "gloss-1" 1 "x.mp4.bak")) [].

(** Version 0 of [x.mp4] with its file in place, while the metadata store
    refuses every write. *)
Definition st_store_down : state :=
  mkState (mkGlossVideo "gloss-1" 0 "x.mp4")
    {[ "/media/x.mp4" := "video" ]} {[ MetadataStore ]}
    (Some (mkGlossVideo "gloss-1" 0 "x.mp4")) [].

(** Version 1 kept as [x.mp4.bak], with its poster and with the video of
    another gloss next to it. *)
Definition st_with_bystander : state :=
  mkState (mkGlossVideo "gloss-1" 1 "x.mp4.bak")
    (<[ "/media/y.mp4" := "other" ]>
       (<[ "/media/x.mp4.jpg" := "poster" ]> {[ "/media/x.mp4.bak" := "video" ]}))
    ∅ (Some (mkGlossVideo "gloss-1" 1 "x.mp4.bak")) [].

(** A video in a subdirectory, with a double extension. *)
Definition st_clip : state :=
  mkState (mkGlossVideo "gloss-2" 0 "a/b/clip.tar.mp4")
    {[ "/media/a/b/clip.tar.mp4" := "video" ]} ∅
    (Some (mkGlossVideo "gloss-2" 0 "a/b/clip.tar.mp4")) [].

(** ** Facts about the string operations *)

Module PyStrFacts.
Import PyStr.

Lemma app_nil_r (s : string) : s +:+ "" = s.
Proof. induction s as [|a s IH]; simpl; [reflexivity | now rewrite IH]. Qed.

Lemma app_assoc (a b c : string) : (a +:+ b) +:+ c = a +:+ (b +:+ c).
Proof. induction a as [|x a IH]; simpl; [reflexivity | now rewrite IH]. Qed.

Lemma length_app (a b : string) :
    String.length (a +:+ b) = (String.length a + String.length b)%nat.
Proof. induction a as [|x a IH]; simpl; [reflexivity | now rewrite IH]. Qed.

Lemma take_drop (n : nat) (s : string) : take n s +:+ drop n s = s.
Proof.
    revert s; induction n as [|n IH]; intros [|a s]; simpl; try reflexivity.
    now rewrite IH.
Qed.

Lemma take_app_length (a b : string) : take (String.length a) (a +:+ b) = a.
Proof.
    induction a as [|x a IH]; simpl.
    - now destruct b.
    - now rewrite IH.
Qed.

Lemma drop_app_length (a b : string) : drop (String.length a) (a +:+ b) = b.
Proof. induction a as [|x a IH]; simpl; [reflexivity | exact IH]. Qed.

Lemma take_all (s : string) : take (String.length s) s = s.
Proof. induction s as [|a s IH]; simpl; [reflexivity | now rewrite IH]. Qed.

Lemma contains_false (c : ascii) (s : string) : contains c s = false -> ~ has c s.
Proof.
  induction s as [|a s IH]; simpl; [tauto|].
  intros H. apply orb_false_iff in H as [Ha Hs].
  apply Ascii.eqb_neq in Ha. intros [E|E]; [contradiction | now apply IH].
Qed.

Lemma has_app (c : ascii) (a b : string) : has c (a +:+ b) <-> has c a \/ has c b.
Proof. induction a as [|x a IH]; simpl; tauto. Qed.

  (** *** [rfind] *)

Lemma rfind_range (c : ascii) (s : string) : (-1 <= rfind c s < len s)%Z.
Proof.
    unfold len. induction s as [|a s IH]; simpl String.length; simpl rfind.
    - lia.
    - destruct (0 <=? rfind c s)%Z eqn:E.
      + apply Z.leb_le in E. lia.
      + destruct (Ascii.eqb a c); lia.
Qed.

Lemma rfind_absent (c : ascii) (s : string) : ~ has c s -> rfind c s = (-1)%Z.
Proof.
    induction s as [|a s IH]; simpl; intros H; [reflexivity|].
    rewrite IH by tauto. simpl.
    destruct (Ascii.eqb_spec a c); [tauto | reflexivity].
Qed.

Lemma rfind_present (c : ascii) (s : string) : has c s -> (0 <= rfind c s)%Z.
Proof.
    induction s as [|a s IH]; simpl; intros H; [tauto|].
    destruct (0 <=? rfind c s)%Z eqn:E.
    - apply Z.leb_le in E. lia.
    - destruct H as [->|H].
      + rewrite Ascii.eqb_refl. lia.
      + apply IH in H. apply Z.leb_gt in E. lia.
Qed.

  (** The last occurrence: nothing equal to [c] comes after it. *)
Lemma rfind_last (c : ascii) (pre post : string) :
    ~ has c post ->
    rfind c (pre +:+ String c post) = Z.of_nat (String.length pre).
Proof.
    intros H. induction pre as [|a pre IH]; simpl.
    - rewrite (rfind_absent _ _ H). simpl. now rewrite Ascii.eqb_refl.
    - rewrite IH. destruct (0 <=? _)%Z eqn:E; [lia|].
      apply Z.leb_gt in E. lia.
Qed.

Lemma rfind_app_absent (c : ascii) (a b : string) :
    ~ has c b -> rfind c (a +:+ b) = rfind c a.
Proof.
    intros H. induction a as [|x a IH]; simpl.
    - now apply rfind_absent.
    - now rewrite IH.
Qed.

Lemma rfind_app_present (c : ascii) (a b : string) :
    has c b -> (Z.of_nat (String.length a) <= rfind c (a +:+ b))%Z.
Proof.
    intros H. induction a as [|x a IH]; simpl String.length; simpl rfind.
    - apply (rfind_present _ _ H).
    - destruct (0 <=? _)%Z eqn:E; [lia|]. apply Z.leb_gt in E. lia.
Qed.

  (** A found index splits the string around the last occurrence. *)
Lemma rfind_split (c : ascii) (s : string) :
    (0 <= rfind c s)%Z ->
    exists pre post,
      s = pre +:+ String c post /\
      rfind c s = Z.of_nat (String.length pre) /\ ~ has c post.
Proof.
    induction s as [|a s IH]; simpl; [lia|].
    destruct (0 <=? rfind c s)%Z eqn:E.
    - intros _. apply Z.leb_le in E.
      destruct (IH E) as (pre & post & -> & Hi & Hp).
      exists (String a pre), post. simpl String.length. repeat split; [lia | exact Hp].
    - destruct (Ascii.eqb_spec a c) as [->|Hne]; [|lia]. intros _.
      exists "", s. repeat split.
      intros Hs. apply rfind_present in Hs. apply Z.leb_gt in E. lia.
Qed.

  (** *** Slices *)

Lemma bound_nat (n : nat) (s : string) :
    (n <= String.length s)%nat -> bound (Z.of_nat n) s = n.
Proof.
    intros H. unfold bound, len.
    destruct (Z.ltb_spec (Z.of_nat n) 0); lia.
Qed.

Lemma slice_to_app (a b : string) : slice_to (len a) (a +:+ b) = a.
Proof.
    unfold slice_to, len. rewrite bound_nat by (rewrite length_app; lia).
    apply take_app_length.
Qed.

Lemma slice_from_app (a b : string) : slice_from (len a) (a +:+ b) = b.
Proof.
    unfold slice_from, len. rewrite bound_nat by (rewrite length_app; lia).
    apply drop_app_length.
Qed.

Lemma slice_split (i : Z) (s : string) : slice_to i s +:+ slice_from i s = s.
Proof. apply take_drop. Qed.

Lemma slice_to_0 (s : string) : slice_to 0 s = "".
Proof. unfold slice_to, bound. simpl. now destruct s. Qed.

  (** The one-character slice at the position of a given character. *)
Lemma slice_char (pre post : string) (c : ascii) :
    slice (len pre) (len pre + 1) (pre +:+ String c post) = String c "".
Proof.
    unfold slice, len.
    replace (Z.of_nat (String.length pre) + 1)%Z
      with (Z.of_nat (S (String.length pre))) by lia.
    rewrite !bound_nat by (rewrite length_app; simpl; lia).
    rewrite drop_app_length.
    replace (S (String.length pre) - String.length pre)%nat with 1%nat by lia.
    simpl. now destruct post.
Qed.

  (** *** Suffixes *)

Lemma endswith_char_app (c : ascii) (a b : string) :
    b <> "" -> endswith_char c (a +:+ b) = endswith_char c b.
Proof.
    intros Hb. induction a as [|x a IH]; simpl; [reflexivity|].
    destruct (a +:+ b) eqn:E; [|exact IH].
    destruct a; simpl in E; [congruence | discriminate].
Qed.

Lemma endswith_app (a suffix : string) : endswith suffix (a +:+ suffix) = true.
Proof.
    unfold endswith. rewrite length_app.
    replace (String.length a + String.length suffix - String.length suffix)%nat
      with (String.length a) by lia.
    rewrite drop_app_length, String.eqb_refl.
    rewrite andb_true_r. apply Nat.leb_le. lia.
Qed.

Lemma endswith_inv (suffix s : string) :
    endswith suffix s = true -> exists a, s = a +:+ suffix.
Proof.
    unfold endswith. intros H. apply andb_true_iff in H as [_ H].
    apply String.eqb_eq in H.
    exists (take (String.length s - String.length suffix) s).
    rewrite <- H at 2. symmetry. apply take_drop.
Qed.

End PyStrFacts.

(** ** Facts about [posixpath] *)

Module PosixPathFacts.
Import PyStr PosixPath PyStrFacts.

  (** [splitext] cuts the path in two: nothing is lost or added. *)
Lemma splitext_app (p : string) : fst (splitext p) +:+ snd (splitext p) = p.
Proof.
    unfold splitext.
    destruct (_ <? _)%Z; [destruct (skip_leading_dots _ _ _)|]; simpl;
      rewrite ?slice_to_0, ?app_nil_r; auto using slice_split.
Qed.

  (** The loop finds a character that is not a dot when there is one in the
      range it scans. *)
Lemma skip_leading_dots_found (n : nat) (i : Z) (pre post : string) (c : ascii) :
    c <> extsep ->
    (i <= len pre < i + Z.of_nat n)%Z ->
    skip_leading_dots n i (pre +:+ String c post) = true.
Proof.
    intros Hc. revert i. induction n as [|n IH]; intros i Hi; [lia|].
    simpl. destruct (negb _) eqn:E; [reflexivity|].
    apply IH. destruct (Z.eq_dec i (len pre)) as [->|]; [|lia].
    rewrite slice_char in E. simpl in E.
    destruct (Ascii.eqb_spec c extsep); [contradiction | discriminate].
Qed.

  (** A path whose file name carries an extension: [stem] ends in a file name
      with a character [c] that is not a dot, and [e] is free of dots and
      separators. *)
Lemma splitext_ext (a b e : string) (c : ascii) :
    c <> extsep -> c <> sep -> ~ has sep b ->
    ~ has extsep e -> ~ has sep e ->
    splitext ((a +:+ String c b) +:+ String extsep e)
    = (a +:+ String c b, String extsep e).
Proof.
    intros Hc Hs Hb He Hse. unfold splitext.
    rewrite (rfind_last extsep _ _ He).
    assert (Hsep : rfind sep ((a +:+ String c b) +:+ String extsep e) = rfind sep a).
    { rewrite !app_assoc. apply rfind_app_absent. simpl. rewrite has_app. simpl.
      intros [?|[?|[?|?]]]; try tauto; try congruence. discriminate. }
    rewrite Hsep. pose proof (rfind_range sep a) as Hr. unfold len in Hr.
    rewrite length_app. simpl String.length.
    destruct (Z.ltb_spec (rfind sep a)
                (Z.of_nat (String.length a + S (String.length b)))); [|lia].
    assert (Hskip : forall n,
      (Z.of_nat (String.length a) < rfind sep a + 1 + Z.of_nat n)%Z ->
      skip_leading_dots n (rfind sep a + 1)
        ((a +:+ String c b) +:+ String extsep e) = true).
    { intros n Hn. rewrite (app_assoc a (String c b)).
      change (String c b +:+ String extsep e)
        with (String c (b +:+ String extsep e)).
      apply skip_leading_dots_found; [exact Hc | unfold len; lia]. }
    rewrite Hskip by lia.
    replace (Z.of_nat (String.length a + S (String.length b)))
      with (len (a +:+ String c b))
      by (unfold len; rewrite length_app; reflexivity).
    now rewrite slice_to_app, slice_from_app.
Qed.

  (** What [splitext] calls an extension: nothing, or a dot followed by
      characters among which there is neither a dot nor a separator. *)
Lemma splitext_ext_shape (p : string) :
    snd (splitext p) = "" \/
    exists e, snd (splitext p) = String extsep e /\ ~ has extsep e /\ ~ has sep e.
Proof.
    unfold splitext.
    destruct (Z.ltb_spec (rfind sep p) (rfind extsep p)) as [Hlt|];
      [|left; apply slice_to_0].
    destruct (skip_leading_dots _ _ _); [|left; apply slice_to_0].
    right. pose proof (rfind_range sep p) as Hr.
    destruct (rfind_split extsep p) as (pre & post & Hp & Hi & Hpost); [lia|].
    exists post. simpl. rewrite Hi. fold (len pre).
    split; [rewrite Hp; apply slice_from_app|]. split; [exact Hpost|].
    intros Hs.
    assert (has sep (String extsep post)) as Hs' by (simpl; tauto).
    apply (rfind_app_present sep pre) in Hs'. rewrite <- Hp in Hs'. lia.
Qed.

  (** *** [join] *)

Lemma join_is_prefix (a b : string) : join a b = join_prefix a b +:+ b.
Proof.
    unfold join, join_prefix. destruct (startswith_char sep b); [reflexivity|].
    destruct (_ || _); [reflexivity|]. now rewrite app_assoc.
Qed.

End PosixPathFacts.

(** ** The path naming scheme *)

Module NamingScheme.
Import PyStr PosixPath PyStrFacts PosixPathFacts.

Lemma rstrip_app (c : ascii) (s : string) :
    exists t, all_char c t = true /\ s = rstrip c s +:+ t.
Proof.
    induction s as [|a s (t & Ht & IH)]; [exists ""; split; reflexivity|].
    simpl. destruct (rstrip c s) eqn:E.
    - destruct (Ascii.eqb_spec a c) as [->|Hne].
      + exists (String c t). simpl. rewrite Ascii.eqb_refl, Ht.
        split; [reflexivity | now rewrite IH at 1].
      + exists t. split; [exact Ht | now rewrite IH at 1].
    - exists t. split; [exact Ht | now rewrite IH at 1].
Qed.

  (** The tail of [split] is what follows the last separator. *)
Lemma split_tail_no_sep (p : string) : ~ has sep (snd (split p)).
Proof.
    unfold split. simpl.
    destruct (Z_le_gt_dec 0 (rfind sep p)) as [Hge|Hlt].
    - destruct (rfind_split sep p Hge) as (pre & post & Hp & Hi & Hpost).
      rewrite Hi. rewrite Hp.
      replace (pre +:+ String sep post) with ((pre +:+ String sep "") +:+ post)
        by (now rewrite app_assoc).
      replace (Z.of_nat (String.length pre) + 1)%Z with (len (pre +:+ String sep ""))
        by (unfold len; rewrite length_app; simpl; lia).
      now rewrite slice_from_app.
    - pose proof (rfind_range sep p) as Hr.
      assert (E : slice_from (rfind sep p + 1) p = p).
      { replace (rfind sep p) with (-1)%Z by lia.
        unfold slice_from, bound, len. change (-1 + 1)%Z with 0%Z. simpl.
        replace (Z.to_nat _) with 0%nat by lia. now destruct p. }
      rewrite E. intros Hs. apply rfind_present in Hs. lia.
Qed.

Lemma split_app (p : string) :
    exists slashes,
      all_char sep slashes = true /\
      p = fst (split p) +:+ slashes +:+ snd (split p).
Proof.
    unfold split. simpl. set (i := (rfind sep p + 1)%Z).
    destruct (negb _ && negb _).
    - destruct (rstrip_app sep (slice_to i p)) as (t & Ht & Hs).
      exists t. split; [exact Ht|].
      rewrite <- app_assoc, <- Hs. symmetry. apply slice_split.
    - exists "". split; [reflexivity|]. simpl. symmetry. apply slice_split.
Qed.

Lemma slice_to_2 (basename : string) :
    slice_to 2 basename = partition_prefix basename.
Proof.
    unfold slice_to, bound, len.
    destruct basename as [|a [|b r]]; try reflexivity.
    simpl String.length. change (2 <? 0)%Z with false. cbv iota.
    replace (Z.to_nat _) with 2%nat by lia.
    simpl. now destruct r.
Qed.

Lemma join_prefix_basename (basename : string) :
    ~ has sep basename ->
    join (partition_prefix basename) basename
    = if String.eqb basename "" then ""
      else partition_prefix basename +:+ String sep basename.
Proof.
    intros H. unfold join.
    destruct basename as [|a [|b r]]; [reflexivity| |]; simpl in *.
    - destruct (Ascii.eqb_spec a sep); [tauto | reflexivity].
    - destruct (Ascii.eqb_spec a sep); [tauto|].
      destruct (Ascii.eqb_spec b sep); [tauto | reflexivity].
Qed.

Example get_valid_name_gloss :
    get_valid_name "glossvideo/12345.mp4" = "glossvideo/12/12345.mp4".
Proof. reflexivity. Qed.

Example get_valid_name_short : get_valid_name "dir/a" = "dir/a/a".
Proof. reflexivity. Qed.

Example get_valid_name_empty : get_valid_name "" = "".
Proof. reflexivity. Qed.

Example get_valid_name_no_basename : get_valid_name "dir/" = "dir/".
Proof. reflexivity. Qed.

End NamingScheme.

(** ** The [.bak] chain and the search for a free backup name *)

Module BackupChain.
Import PyStr PosixPath PyStrFacts PosixPathFacts.

Lemma bak_chain_S (k : nat) (n : string) :
    bak_chain (S k) n = bak_chain k n +:+ ".bak".
Proof.
    revert n. induction k as [|k IH]; intros n; [reflexivity|].
    change (bak_chain (S (S k)) n) with (bak_chain (S k) (n +:+ ".bak")).
    now rewrite IH.
Qed.

  (** The chain only appends: [k] suffixes after the name. *)
Lemma bak_chain_app (k : nat) (n : string) :
    bak_chain k n = n +:+ bak_chain k "".
Proof.
    induction k as [|k IH]; [symmetry; apply app_nil_r|].
    now rewrite !bak_chain_S, IH, app_assoc.
Qed.

Lemma bak_chain_length (k : nat) (n : string) :
    String.length (bak_chain k n) = (String.length n + 4 * k)%nat.
Proof.
    induction k as [|k IH]; [simpl; lia|].
    rewrite bak_chain_S, length_app, IH. simpl. lia.
Qed.

Lemma bak_chain_startswith (k : nat) (n : string) :
    startswith_char sep (bak_chain k n) = startswith_char sep n.
Proof.
    induction k as [|k IH]; [reflexivity|].
    rewrite bak_chain_S. destruct (bak_chain k n) eqn:E; simpl in *.
    - now rewrite <- IH.
    - exact IH.
Qed.

Lemma join_prefix_chain (location : string) (k : nat) (n : string) :
    join_prefix location (bak_chain k n) = join_prefix location n.
Proof. unfold join_prefix. now rewrite bak_chain_startswith. Qed.

Lemma join_chain_length (location : string) (k : nat) (n : string) :
    String.length (join location (bak_chain k n))
    = (String.length (join location n) + 4 * k)%nat.
Proof.
    rewrite !join_is_prefix, join_prefix_chain, !length_app, bak_chain_length. lia.
Qed.

  (** No poster is a backup: the one ends in [.jpg], the other in [.bak]. *)
Lemma endswith_g_swap_ext (p : string) : endswith_char "g" (swap_ext p) = true.
Proof. unfold swap_ext. now rewrite endswith_char_app. Qed.

Lemma endswith_join (c : ascii) (location n : string) :
    n <> "" -> endswith_char c (join location n) = endswith_char c n.
Proof. intros H. rewrite join_is_prefix. now apply endswith_char_app. Qed.

Lemma swap_ext_not_backup (location p n : string) (k : nat) :
    swap_ext p <> join location (bak_chain (S k) n).
Proof.
    intros E. pose proof (endswith_g_swap_ext p) as Hg. rewrite E in Hg.
    rewrite join_is_prefix, bak_chain_S, <- app_assoc in Hg.
    rewrite endswith_char_app in Hg by discriminate. discriminate.
Qed.

Section Search.
Variable location : string.
Variable fs : gmap string string.

Abbreviation candidate := (candidate location).

Lemma candidate_inj (n : string) : Inj (=) (=) (candidate n).
Proof.
      intros i j E. apply (f_equal String.length) in E.
      unfold candidate in E. rewrite !join_chain_length in E. lia.
Qed.

    (** What the bounded loop answers. *)
Lemma find_backup_name_spec (fuel : nat) (v : Z) (n : string) :
      match find_backup_name location fuel fs v n with
      | Some (v', n') =>
          exists k, (k < fuel)%nat /\ v' = (v + Z.of_nat k)%Z /\ n' = bak_chain k n /\
            (forall i, (i < k)%nat -> path_exists fs (candidate n i) = true) /\
            path_exists fs (candidate n k) = false
      | None =>
          forall i, (i < fuel)%nat -> path_exists fs (candidate n i) = true
      end.
Proof.
      revert v n. induction fuel as [|fuel IH]; intros v n; simpl; [lia|].
      destruct (path_exists fs (join location n)) eqn:E.
      - specialize (IH (v + 1)%Z (n +:+ ".bak")).
        destruct (find_backup_name _ _ _ _ _) as [[v' n']|].
        + destruct IH as (k & Hk & -> & -> & Hall & Hend).
          exists (S k). repeat split; [lia | lia | | exact Hend].
          intros [|i] Hi; [exact E | apply Hall; lia].
        + intros [|i] Hi; [exact E | apply IH; lia].
      - exists 0%nat. repeat split; [lia | lia | lia | exact E].
Qed.

    (** Distinct existing paths are no more than the files there are. *)
Lemma candidates_bounded (n : string) (m : nat) :
      (forall i, (i < m)%nat -> path_exists fs (candidate n i) = true) ->
      (m <= size fs)%nat.
Proof.
      intros H.
      set (l := candidate n <$> seq 0 m).
      assert (Hnd : NoDup l).
      { apply (@NoDup_fmap_2 _ _ (candidate n) (candidate_inj n)), NoDup_seq. }
      assert (Hsub : (list_to_set l : gset string) ⊆ dom fs).
      { intros p Hp. apply elem_of_list_to_set in Hp.
        apply list_elem_of_fmap in Hp as (i & -> & Hi).
        apply elem_of_seq in Hi. apply elem_of_dom.
        specialize (H i ltac:(lia)). unfold path_exists in H.
        now apply bool_decide_eq_true in H. }
      apply subseteq_size in Hsub.
      rewrite size_list_to_set in Hsub by exact Hnd.
      rewrite size_dom in Hsub. unfold l in Hsub.
      now rewrite length_fmap, length_seq in Hsub.
Qed.

    (** The loop of [reversion] terminates: with the bound [backup_fuel] it
        always finds a free name, the first of the chain. *)
Lemma find_backup_name_total (v : Z) (n : string) :
      exists k,
        find_backup_name location (backup_fuel fs) fs v n
        = Some ((v + Z.of_nat k)%Z, bak_chain k n) /\
        (forall i, (i < k)%nat -> path_exists fs (candidate n i) = true) /\
        path_exists fs (candidate n k) = false.
Proof.
      pose proof (find_backup_name_spec (backup_fuel fs) v n) as H.
      destruct (find_backup_name _ _ _ _ _) as [[v' n']|].
      - destruct H as (k & _ & -> & -> & Hall & Hend). now exists k.
      - apply candidates_bounded in H. unfold backup_fuel in H. lia.
Qed.

    (** The free name is determined by the file system. *)
Lemma first_free_unique (n : string) (k k' : nat) :
      (forall i, (i < k)%nat -> path_exists fs (candidate n i) = true) ->
      path_exists fs (candidate n k) = false ->
      (forall i, (i < k')%nat -> path_exists fs (candidate n i) = true) ->
      path_exists fs (candidate n k') = false ->
      k = k'.
Proof.
      intros Hk Hk0 Hk' Hk'0.
      destruct (lt_eq_lt_dec k k') as [[Hlt|Heq]|Hgt]; [|exact Heq|].
      - rewrite Hk' in Hk0 by exact Hlt. discriminate.
      - rewrite Hk in Hk'0 by exact Hgt. discriminate.
Qed.

End Search.
End BackupChain.

(** ** Running the primitives *)

Ltac run_monad :=
  cbv [bind ret raise try_pass get_self get_files set_self set_files
       set_row set_version set_name log os_path_exists model_save
       model_delete];
  cbn [self files protected row trace gloss_id version videofile_name].

Module Primitives.

Lemma not_protected (st : state) (p : resource) :
  protected st = ∅ -> bool_decide (p ∈ protected st) = false.
Proof. intros ->. apply bool_decide_eq_false. set_solver. Qed.

Lemma path_exists_true (fs : gmap string string) (p : string) :
  path_exists fs p = true <-> exists c, fs !! p = Some c.
Proof. unfold path_exists. rewrite bool_decide_eq_true. reflexivity. Qed.

Lemma path_exists_false (fs : gmap string string) (p : string) :
  path_exists fs p = false <-> fs !! p = None.
Proof.
  unfold path_exists. rewrite bool_decide_eq_false, eq_None_not_Some. reflexivity.
Qed.

Lemma bind_return {A B} (m : M A) (k : A -> M B) (st : state) (a : A) (st' : state) :
  m st = (Return a, st') -> bind m k st = k a st'.
Proof. intros H. unfold bind. now rewrite H. Qed.

Lemma bind_raise {A B} (m : M A) (k : A -> M B) (st : state) (e : exn) (st' : state) :
  m st = (Raise e, st') -> bind m k st = (Raise e, st').
Proof. intros H. unfold bind. now rewrite H. Qed.

Lemma os_rename_missing (src dst : string) (st : state) :
  files st !! src = None ->
  os_rename src dst st = (Raise FileNotFoundError, logged (EvRename src dst) st).
Proof. intros H. unfold os_rename. run_monad. simpl. now rewrite H. Qed.

Lemma os_rename_denied (src dst c : string) (st : state) :
  files st !! src = Some c ->
  bool_decide (FilePath src ∈ protected st)
  || bool_decide (FilePath dst ∈ protected st) = true ->
  os_rename src dst st = (Raise PermissionError, logged (EvRename src dst) st).
Proof. intros H Hp. unfold os_rename. run_monad. simpl. now rewrite H, Hp. Qed.

Lemma os_rename_moves (src dst c : string) (st : state) :
  files st !! src = Some c ->
  bool_decide (FilePath src ∈ protected st)
  || bool_decide (FilePath dst ∈ protected st) = false ->
  os_rename src dst st
  = (Return tt,
     mkState (self st) (<[dst := c]> (delete src (files st))) (protected st)
       (row st) (trace st ++ [EvRename src dst])).
Proof. intros H Hp. unfold os_rename. run_monad. simpl. now rewrite H, Hp. Qed.

Lemma os_unlink_missing (p : string) (st : state) :
  files st !! p = None ->
  os_unlink p st = (Raise FileNotFoundError, logged (EvUnlink p) st).
Proof. intros H. unfold os_unlink. run_monad. simpl. now rewrite H. Qed.

Lemma os_unlink_denied (p c : string) (st : state) :
  files st !! p = Some c -> bool_decide (FilePath p ∈ protected st) = true ->
  os_unlink p st = (Raise PermissionError, logged (EvUnlink p) st).
Proof. intros H Hp. unfold os_unlink. run_monad. simpl. now rewrite H, Hp. Qed.

Lemma os_unlink_removes (p c : string) (st : state) :
  files st !! p = Some c -> bool_decide (FilePath p ∈ protected st) = false ->
  os_unlink p st
  = (Return tt,
     mkState (self st) (delete p (files st)) (protected st) (row st)
       (trace st ++ [EvUnlink p])).
Proof. intros H Hp. unfold os_unlink. run_monad. simpl. now rewrite H, Hp. Qed.

Lemma model_save_refused (st : state) :
  bool_decide (MetadataStore ∈ protected st) = true ->
  model_save st = (Raise DatabaseError, logged (EvSave (self st)) st).
Proof. intros H. unfold model_save. run_monad. rewrite H. reflexivity. Qed.

Lemma model_save_accepted (st : state) :
  bool_decide (MetadataStore ∈ protected st) = false ->
  model_save st
  = (Return tt,
     mkState (self st) (files st) (protected st) (Some (self st))
       (trace st ++ [EvSave (self st)])).
Proof. intros H. unfold model_save. run_monad. rewrite H. reflexivity. Qed.

Lemma model_delete_unsaved (st : state) :
  row st = None ->
  model_delete st = (Raise AssertionError, logged EvDelete st).
Proof.
  intros H. unfold model_delete, logged. run_monad. rewrite H. reflexivity.
Qed.

Lemma model_delete_refused (st : state) (r : GlossVideo) :
  row st = Some r -> bool_decide (MetadataStore ∈ protected st) = true ->
  model_delete st = (Raise DatabaseError, logged EvDelete st).
Proof.
  intros H Hp. unfold model_delete, logged. run_monad. rewrite H, Hp. reflexivity.
Qed.

Lemma model_delete_accepted (st : state) (r : GlossVideo) :
  row st = Some r -> bool_decide (MetadataStore ∈ protected st) = false ->
  model_delete st
  = (Return tt,
     mkState (self st) (files st) (protected st) None (trace st ++ [EvDelete])).
Proof.
  intros H Hp. unfold model_delete, logged. run_monad. rewrite H, Hp. reflexivity.
Qed.

(** Whatever its outcome, the delete of the row is one more call in the log
    and leaves the record, the files and the protections alone. *)
Lemma model_delete_shape (st : state) :
  self (snd (model_delete st)) = self st /\
  files (snd (model_delete st)) = files st /\
  protected (snd (model_delete st)) = protected st /\
  trace (snd (model_delete st)) = (trace st ++ [EvDelete])%list.
Proof.
  destruct (row st) as [r|] eqn:Hr.
  - destruct (bool_decide (MetadataStore ∈ protected st)) eqn:Hp.
    + now rewrite (model_delete_refused st r Hr Hp).
    + now rewrite (model_delete_accepted st r Hr Hp).
  - now rewrite (model_delete_unsaved st Hr).
Qed.

End Primitives.

(** ** Poster derivation *)

Section Poster.
Import PyStr PosixPath PyStrFacts PosixPathFacts.

Variable location : string.
Variable storage_url : string -> string.
Variable frame_tool : gmap string string -> string -> string -> tool_result.

Abbreviation video_of st := (videofile_path location (self st)).
Abbreviation poster_of st := (swap_ext (videofile_path location (self st))).

(** The poster is there: [poster_path] answers its path and does nothing. *)
Lemma poster_path_hit (create : bool) (st : state) :
  path_exists (files st) (poster_of st) = true ->
  poster_path location frame_tool create st = (Return (Some (poster_of st)), st).
Proof. intros H. unfold poster_path. run_monad. now rewrite H. Qed.

(** The no-create mode on a missing poster. *)
Lemma poster_path_absent (st : state) :
  path_exists (files st) (poster_of st) = false ->
  poster_path location frame_tool false st = (Return None, st).
Proof. intros H. unfold poster_path. run_monad. now rewrite H. Qed.

(** The no-create mode is a mere existence check. *)
Lemma poster_path_no_create (st : state) :
  poster_path location frame_tool false st
  = (Return (if path_exists (files st) (poster_of st)
             then Some (poster_of st) else None), st).
Proof.
  destruct (path_exists _ _) eqn:E;
    [now apply poster_path_hit | now apply poster_path_absent].
Qed.

(** The create mode on a missing poster: one call of the extraction. *)
Lemma poster_path_miss (st : state) :
  path_exists (files st) (poster_of st) = false ->
  poster_path location frame_tool true st
  = match frame_tool (files st) (video_of st) (poster_of st) with
    | Extracted frame =>
        (Return (Some (poster_of st)),
         mkState (self st) (<[poster_of st := frame]> (files st)) (protected st)
           (row st) (trace st ++ [EvExtractFrame (video_of st) (poster_of st)]))
    | ExtractionFailed =>
        (Return (Some (poster_of st)),
         logged (EvExtractFrame (video_of st) (poster_of st)) st)
    | ExtractionRaised =>
        (Raise ToolError, logged (EvExtractFrame (video_of st) (poster_of st)) st)
    end.
Proof.
  intros H. unfold poster_path, extract_frame. run_monad. rewrite H.
  cbn [negb self files protected row trace].
  now destruct (frame_tool _ _ _).
Qed.

(** C8. The poster of a video path is the path with its final extension
    replaced by [.jpg]: for a path made of a stem whose file name has a
    character other than the dot, then a dot, then an extension without dot or
    separator, the derived path is the stem followed by [.jpg]. The no-create
    mode of [poster_path] answers that path when a file is there, and
    [poster_url] answers the URL swapped in the same way. *)
Theorem poster_path_swaps_final_extension (a b e : string) (c : ascii) :
  Ascii.eqb c extsep = false -> Ascii.eqb c sep = false ->
  contains sep b = false -> contains extsep e = false -> contains sep e = false ->
  let stem := a +:+ String c b in
  swap_ext (stem +:+ String extsep e) = stem +:+ ".jpg" /\
  (forall st, video_of st = stem +:+ String extsep e ->
     poster_path location frame_tool false st
     = (Return (if path_exists (files st) (stem +:+ ".jpg")
                then Some (stem +:+ ".jpg") else None), st)) /\
  (forall st u st',
     storage_url (videofile_name (self st)) = stem +:+ String extsep e ->
     poster_url location storage_url frame_tool st = (Return u, st') ->
     u = stem +:+ ".jpg").
Proof.
  intros Hc Hs Hb He Hse stem.
  apply Ascii.eqb_neq in Hc, Hs. apply contains_false in Hb, He, Hse.
  assert (E : swap_ext (stem +:+ String extsep e) = stem +:+ ".jpg").
  { unfold swap_ext, stem. now rewrite splitext_ext. }
  split; [exact E|]. split.
  - intros st Hv. rewrite poster_path_no_create. now rewrite Hv, E.
  - intros st u st' Hu. unfold poster_url, bind.
    destruct (path_exists (files st) (poster_of st)) eqn:Ex.
    + rewrite (poster_path_hit true st Ex).
      cbv [get_self ret videofile_url]. rewrite Hu, E. congruence.
    + rewrite (poster_path_miss st Ex).
      destruct (frame_tool _ _ _); cbv [get_self ret videofile_url logged];
        cbn [self]; rewrite ?Hu, ?E; congruence.
Qed.

(** Whatever the path, only a final extension is cut off before [.jpg] is
    appended: the path is a root followed by nothing, or by a dot and
    characters without dot or separator. *)
Lemma swap_ext_shape (p : string) :
  exists root ext,
    p = root +:+ ext /\ swap_ext p = root +:+ ".jpg" /\
    (ext = "" \/ exists e, ext = String extsep e /\ ~ has extsep e /\ ~ has sep e).
Proof.
  exists (fst (splitext p)), (snd (splitext p)).
  split; [symmetry; apply splitext_app|]. split; [reflexivity|].
  apply splitext_ext_shape.
Qed.

(** C7, as the code has it. In create mode [poster_path] answers the poster
    path untouched when the file is there. When it is not, it calls the
    extraction once on the video path and the poster path; an exception of the
    extraction propagates, while a returned status, success or failure, is
    dropped and the poster path is answered all the same. *)
Theorem poster_path_create_drops_status (st : state) :
  if path_exists (files st) (poster_of st)
  then poster_path location frame_tool true st = (Return (Some (poster_of st)), st)
  else
    trace (snd (poster_path location frame_tool true st))
    = (trace st ++ [EvExtractFrame (video_of st) (poster_of st)])%list /\
    fst (poster_path location frame_tool true st)
    = match frame_tool (files st) (video_of st) (poster_of st) with
      | ExtractionRaised => Raise ToolError
      | _ => Return (Some (poster_of st))
      end.
Proof.
  destruct (path_exists _ _) eqn:E; [now apply poster_path_hit|].
  rewrite (poster_path_miss _ E). now destruct (frame_tool _ _ _).
Qed.

(** C6, as the code has it. [poster_url] first calls [poster_path] in create
    mode and then swaps the extension of the URL: it answers the swapped URL
    and leaves the state alone when the poster file is there; when it is not,
    it calls the extraction once, and answers the swapped URL unless the
    extraction raises. *)
Theorem poster_url_generates_when_missing (st : state) :
  if path_exists (files st) (poster_of st)
  then poster_url location storage_url frame_tool st
       = (Return (swap_ext (storage_url (videofile_name (self st)))), st)
  else
    trace (snd (poster_url location storage_url frame_tool st))
    = (trace st ++ [EvExtractFrame (video_of st) (poster_of st)])%list /\
    fst (poster_url location storage_url frame_tool st)
    = match frame_tool (files st) (video_of st) (poster_of st) with
      | ExtractionRaised => Raise ToolError
      | _ => Return (swap_ext (storage_url (videofile_name (self st))))
      end.
Proof.
  unfold poster_url, bind. destruct (path_exists _ _) eqn:E.
  - now rewrite (poster_path_hit _ _ E).
  - rewrite (poster_path_miss _ E). now destruct (frame_tool _ _ _).
Qed.

End Poster.

(** ** The version chain *)

Section VersionChain.
Import PyStr PosixPath PyStrFacts PosixPathFacts BackupChain Primitives.

Variable location : string.
Variable frame_tool : gmap string string -> string -> string -> tool_result.

Abbreviation src_of st := (join location (videofile_name (self st))).
Abbreviation reversion' := (reversion location frame_tool).
Abbreviation rename_and_save' := (rename_and_save location frame_tool).

(** The state right after a successful rename. *)
Abbreviation moved st newname c :=
  (mkState (self st) (<[join location newname := c]> (delete (src_of st) (files st)))
     (protected st) (row st)
     (trace st ++ [EvRename (src_of st) (join location newname)])).

(** The state once the old poster, if there is one, is unlinked and the
    record carries its new name: all of [renamed_state] but the save. *)
Abbreviation named st newname c :=
  (mkState (mkGlossVideo (gloss_id (self st)) (version (self st)) newname)
     (if path_exists (<[join location newname := c]> (delete (src_of st) (files st)))
           (swap_ext (src_of st))
      then delete (swap_ext (src_of st))
             (<[join location newname := c]> (delete (src_of st) (files st)))
      else <[join location newname := c]> (delete (src_of st) (files st)))
     (protected st) (row st)
     (if path_exists (<[join location newname := c]> (delete (src_of st) (files st)))
           (swap_ext (src_of st))
      then trace st ++ [EvRename (src_of st) (join location newname);
                        EvUnlink (swap_ext (src_of st))]
      else trace st ++ [EvRename (src_of st) (join location newname)])).

(** Up to its save, [rename_and_save] ends in its rename, in the unlink of the
    poster, or goes on to save the record under its new name. *)
Lemma rename_and_save_steps (newname : string) (st : state) :
  (exists e, (e = FileNotFoundError \/ e = PermissionError) /\
     (files st !! src_of st = None \/
      bool_decide (FilePath (src_of st) ∈ protected st)
      || bool_decide (FilePath (join location newname) ∈ protected st) = true) /\
     rename_and_save' newname st
     = (Raise e, logged (EvRename (src_of st) (join location newname)) st)) \/
  (exists c, files st !! src_of st = Some c /\
     bool_decide (FilePath (swap_ext (src_of st)) ∈ protected st) = true /\
     rename_and_save' newname st
     = (Raise PermissionError,
        logged (EvUnlink (swap_ext (src_of st))) (moved st newname c))) \/
  (exists c, files st !! src_of st = Some c /\
     rename_and_save' newname st = model_save (named st newname c)).
Proof.
  unfold rename_and_save.
  rewrite (bind_return get_self _ st (self st) st eq_refl).
  destruct (files st !! src_of st) as [c|] eqn:Hsrc.
  2:{ left. exists FileNotFoundError. split; [now left|]. split; [now left|].
      now rewrite (bind_raise _ _ _ _ _ (os_rename_missing _ _ _ Hsrc)). }
  destruct (bool_decide (FilePath (src_of st) ∈ protected st)
            || bool_decide (FilePath (join location newname) ∈ protected st)) eqn:Hp.
  { left. exists PermissionError. split; [now right|]. split; [now right|].
    now rewrite (bind_raise _ _ _ _ _ (os_rename_denied _ _ _ _ Hsrc Hp)). }
  right. rewrite (bind_return _ _ _ _ _ (os_rename_moves _ _ _ _ Hsrc Hp)).
  rewrite (bind_return _ _ _ _ _ (poster_path_no_create _ _ _)).
  cbv [videofile_path]. cbn [self files protected row trace].
  destruct (path_exists _ (swap_ext _)) eqn:Hposter.
  - pose proof Hposter as Hex. apply path_exists_true in Hex as [c' Hc'].
    destruct (bool_decide (FilePath (swap_ext (src_of st)) ∈ protected st))
      eqn:Hpp.
    + left. exists c. split; [reflexivity|]. split; [reflexivity|].
      now rewrite (bind_raise _ _ _ _ _ (os_unlink_denied _ _ (moved st newname c) Hc' Hpp)).
    + right. exists c. split; [reflexivity|]. rewrite Hposter.
      rewrite (bind_return _ _ _ _ _ (os_unlink_removes _ _ (moved st newname c) Hc' Hpp)).
      cbv [bind set_name get_self set_self].
      cbn [self files protected row trace gloss_id version videofile_name].
      now rewrite <- !List.app_assoc.
  - right. exists c. split; [reflexivity|]. rewrite Hposter.
    cbv [bind ret set_name get_self set_self].
    cbn [self files protected row trace gloss_id version videofile_name].
    reflexivity.
Qed.

Lemma model_save_named (newname c : string) (st : state) :
  model_save (named st newname c)
  = if bool_decide (MetadataStore ∈ protected st)
    then (Raise DatabaseError, unsaved_state location st newname c)
    else (Return tt, renamed_state location st newname c).
Proof.
  destruct (bool_decide (MetadataStore ∈ protected st)) eqn:Hp.
  - rewrite (model_save_refused (named st newname c) Hp).
    cbv [unsaved_state renamed_state logged].
    destruct (path_exists _ _);
      cbn [self files protected row trace]; now rewrite <- ?List.app_assoc.
  - rewrite (model_save_accepted (named st newname c) Hp).
    cbv [renamed_state].
    destruct (path_exists _ _);
      cbn [self files protected row trace]; now rewrite <- ?List.app_assoc.
Qed.

(** The four ways [rename_and_save] can end: in its rename, in the unlink of
    the poster, in the save, or with the record renamed and saved. *)
Lemma rename_and_save_cases (newname : string) (st : state) :
  (exists e, (e = FileNotFoundError \/ e = PermissionError) /\
     rename_and_save' newname st
     = (Raise e, logged (EvRename (src_of st) (join location newname)) st)) \/
  (exists c, files st !! src_of st = Some c /\
     rename_and_save' newname st
     = (Raise PermissionError,
        logged (EvUnlink (swap_ext (src_of st))) (moved st newname c))) \/
  (exists c, files st !! src_of st = Some c /\
     bool_decide (MetadataStore ∈ protected st) = true /\
     rename_and_save' newname st
     = (Raise DatabaseError, unsaved_state location st newname c)) \/
  (exists c, files st !! src_of st = Some c /\
     bool_decide (MetadataStore ∈ protected st) = false /\
     rename_and_save' newname st = (Return tt, renamed_state location st newname c)).
Proof.
  destruct (rename_and_save_steps newname st)
    as [(e & He & _ & E)|[(c & Hc & _ & E)|(c & Hc & E)]].
  - left. now exists e.
  - right. left. now exists c.
  - right. right. rewrite model_save_named in E.
    destruct (bool_decide (MetadataStore ∈ protected st)); [left | right];
      now exists c.
Qed.

(** With the source in place and nothing protected, [rename_and_save] goes
    through. *)
Lemma rename_and_save_ok (newname c : string) (st : state) :
  files st !! src_of st = Some c -> protected st = ∅ ->
  rename_and_save' newname st = (Return tt, renamed_state location st newname c).
Proof.
  intros Hsrc Hp.
  destruct (rename_and_save_steps newname st)
    as [(e & _ & [H|H] & _)|[(c' & _ & H & _)|(c' & Hc' & E)]].
  - congruence.
  - rewrite !not_protected in H by exact Hp. discriminate.
  - rewrite not_protected in H by exact Hp. discriminate.
  - rewrite E, model_save_named, (not_protected _ _ Hp). congruence.
Qed.

(** *** What a completed [rename_and_save] leaves behind *)

Lemma renamed_state_self (st : state) (newname c : string) :
  self (renamed_state location st newname c)
  = mkGlossVideo (gloss_id (self st)) (version (self st)) newname.
Proof. cbv [renamed_state]. now destruct (path_exists _ _). Qed.

Lemma renamed_state_row (st : state) (newname c : string) :
  row (renamed_state location st newname c)
  = Some (self (renamed_state location st newname c)).
Proof. cbv [renamed_state]. now destruct (path_exists _ _). Qed.

Lemma renamed_state_protected (st : state) (newname c : string) :
  protected (renamed_state location st newname c) = protected st.
Proof. cbv [renamed_state]. now destruct (path_exists _ _). Qed.

Lemma renamed_state_dst (st : state) (newname c : string) :
  swap_ext (src_of st) <> join location newname ->
  files (renamed_state location st newname c) !! join location newname = Some c.
Proof.
  intros Hne. cbv [renamed_state]. destruct (path_exists _ _); cbn [files].
  - rewrite lookup_delete_ne by exact Hne. apply lookup_insert_eq.
  - apply lookup_insert_eq.
Qed.

Lemma renamed_state_src (st : state) (newname c : string) :
  join location newname <> src_of st ->
  files (renamed_state location st newname c) !! src_of st = None.
Proof.
  intros Hne. cbv [renamed_state]. destruct (path_exists _ _); cbn [files].
  - destruct (decide (swap_ext (src_of st) = src_of st)) as [->|Hp].
    + apply lookup_delete_eq.
    + rewrite lookup_delete_ne by exact Hp.
      rewrite lookup_insert_ne by exact Hne. apply lookup_delete_eq.
  - rewrite lookup_insert_ne by exact Hne. apply lookup_delete_eq.
Qed.

Lemma renamed_state_logged (st : state) (newname c : string) :
  In (EvRename (src_of st) (join location newname))
     (trace (renamed_state location st newname c)).
Proof.
  cbv [renamed_state]. destruct (path_exists _ _); cbn [trace];
    apply in_or_app; right; now left.
Qed.


(** *** The branches of [reversion] *)

(** Revert on a chained name: strip one suffix, count down, rename. *)
Lemma reversion_revert_step (st : state) (newname : string) :
  version (self st) <> 0%Z ->
  splitext (videofile_name (self st)) = (newname, ".bak") ->
  reversion' true st
  = rename_and_save' newname (at_version (version (self st) - 1) st).
Proof.
  intros Hv Hs. unfold reversion.
  rewrite (bind_return get_self _ st (self st) st eq_refl).
  destruct (Z.eqb_spec (version (self st)) 0); [contradiction|].
  rewrite Hs. cbn [negb String.eqb Ascii.eqb Bool.eqb].
  reflexivity.
Qed.

(** Revert on a name without the suffix: the exception, and nothing else. *)
Lemma reversion_revert_corrupted (st : state) :
  version (self st) <> 0%Z ->
  snd (splitext (videofile_name (self st))) <> ".bak" ->
  reversion' true st = (Raise ValueError, st).
Proof.
  intros Hv Hs. unfold reversion.
  rewrite (bind_return get_self _ st (self st) st eq_refl).
  destruct (Z.eqb_spec (version (self st)) 0); [contradiction|].
  destruct (splitext _) as [newname bak]. cbn [snd] in Hs.
  destruct (String.eqb_spec bak ".bak"); [contradiction | reflexivity].
Qed.

(** Advance: the loop stops at the first free name of the chain, the version
    has counted the names tried, and the rename follows. *)
Lemma reversion_advance_step (st : state) :
  exists k,
    (forall i, (i < k)%nat ->
       path_exists (files st) (candidate location (videofile_name (self st)) i) = true) /\
    path_exists (files st) (candidate location (videofile_name (self st)) k) = false /\
    reversion' false st
    = rename_and_save' (bak_chain k (videofile_name (self st)))
        (at_version (version (self st) + Z.of_nat k) st).
Proof.
  destruct (find_backup_name_total location (files st) (version (self st))
              (videofile_name (self st))) as (k & Hfind & Hall & Hfree).
  exists k. split; [exact Hall|]. split; [exact Hfree|].
  unfold reversion.
  rewrite (bind_return get_self _ st (self st) st eq_refl).
  rewrite (bind_return get_files _ st (files st) st eq_refl).
  rewrite Hfind. reflexivity.
Qed.

(** *** [delete_files] and the terminal revert *)

(** The state once the video file is unlinked. *)
Abbreviation video_gone st :=
  (mkState (self st) (delete (src_of st) (files st)) (protected st) (row st)
     (trace st ++ [EvUnlink (src_of st)])).

(** The ways through [delete_files]. The [except] clause turns every failure
    into a normal return; a failure of the first unlink also skips what the
    [try] block had left to do. *)
Lemma delete_files_cases (st : state) :
  (delete_files location frame_tool st = (Return tt, logged (EvUnlink (src_of st)) st) /\
   (files st !! src_of st = None \/
    bool_decide (FilePath (src_of st) ∈ protected st) = true)) \/
  (exists c, files st !! src_of st = Some c /\
     bool_decide (FilePath (src_of st) ∈ protected st) = false /\
     ((delete_files location frame_tool st = (Return tt, video_gone st) /\
       delete (src_of st) (files st) !! swap_ext (src_of st) = None) \/
      (delete_files location frame_tool st
       = (Return tt, logged (EvUnlink (swap_ext (src_of st))) (video_gone st)) /\
       bool_decide (FilePath (swap_ext (src_of st)) ∈ protected st) = true) \/
      (delete_files location frame_tool st
       = (Return tt,
          mkState (self st)
            (delete (swap_ext (src_of st)) (delete (src_of st) (files st)))
            (protected st) (row st)
            (trace st ++ [EvUnlink (src_of st); EvUnlink (swap_ext (src_of st))]))))).
Proof.
  unfold delete_files, try_pass.
  rewrite (bind_return get_self _ st (self st) st eq_refl).
  cbv [videofile_path].
  destruct (files st !! src_of st) as [c|] eqn:Hsrc.
  2:{ left. split; [|now left].
      now rewrite (bind_raise _ _ _ _ _ (os_unlink_missing _ _ Hsrc)). }
  destruct (bool_decide (FilePath (src_of st) ∈ protected st)) eqn:Hp.
  { left. split; [|now right].
    now rewrite (bind_raise _ _ _ _ _ (os_unlink_denied _ _ _ Hsrc Hp)). }
  right. exists c. split; [reflexivity|]. split; [reflexivity|].
  rewrite (bind_return _ _ _ _ _ (os_unlink_removes _ _ _ Hsrc Hp)).
  rewrite (bind_return _ _ _ _ _ (poster_path_no_create _ _ _)).
  cbv [videofile_path]. cbn [self files protected row trace].
  destruct (path_exists _ (swap_ext _)) eqn:Hposter.
  - apply path_exists_true in Hposter as [c' Hc']. right.
    destruct (bool_decide (FilePath (swap_ext (src_of st)) ∈ protected st)) eqn:Hpp.
    + left. split; [|reflexivity].
      now rewrite (os_unlink_denied _ _ (video_gone st) Hc' Hpp).
    + right. rewrite (os_unlink_removes _ _ (video_gone st) Hc' Hpp).
      cbn [self files protected row trace]. now rewrite <- List.app_assoc.
  - left. split; [reflexivity|]. now apply path_exists_false.
Qed.

(** [delete_files] never raises, and touches neither the record nor its
    row; whatever it did was an unlink. *)
Lemma delete_files_returns (st : state) :
  fst (delete_files location frame_tool st) = Return tt /\
  self (snd (delete_files location frame_tool st)) = self st /\
  row (snd (delete_files location frame_tool st)) = row st /\
  exists evs,
    trace (snd (delete_files location frame_tool st)) = (trace st ++ evs)%list /\
    forallb (fun e => negb (is_rename_or_save e)) evs = true.
Proof.
  destruct (delete_files_cases st)
    as [[-> _]|(c & _ & _ & [[-> _]|[[-> _]| ->]])];
    cbn [fst snd self row trace logged]; repeat split.
  - now exists [EvUnlink (src_of st)].
  - now exists [EvUnlink (src_of st)].
  - exists [EvUnlink (src_of st); EvUnlink (swap_ext (src_of st))].
    split; [now rewrite <- List.app_assoc | reflexivity].
  - now exists [EvUnlink (src_of st); EvUnlink (swap_ext (src_of st))].
Qed.

(** When the video file is there and nothing is protected, both the video and
    the poster are gone afterwards. *)
Lemma delete_files_removes_both (st : state) (c : string) :
  files st !! src_of st = Some c -> protected st = ∅ ->
  files (snd (delete_files location frame_tool st)) !! src_of st = None /\
  files (snd (delete_files location frame_tool st)) !! swap_ext (src_of st) = None.
Proof.
  intros Hsrc Hp.
  destruct (delete_files_cases st)
    as [[_ [H|H]]|(c' & _ & _ & [[-> Hno]|[[_ H]| ->]])]; cbn [snd files].
  - congruence.
  - rewrite not_protected in H by exact Hp. discriminate.
  - split; [apply lookup_delete_eq | exact Hno].
  - rewrite not_protected in H by exact Hp. discriminate.
  - split; [|apply lookup_delete_eq].
    destruct (decide (swap_ext (src_of st) = src_of st)) as [->|Hne];
      [apply lookup_delete_eq|].
    rewrite lookup_delete_ne by exact Hne. apply lookup_delete_eq.
Qed.

(** The terminal revert is [delete_files], which always returns, followed by
    the delete of the row. *)
Lemma terminal_revert_run (st : state) :
  version (self st) = 0%Z ->
  reversion' true st = model_delete (snd (delete_files location frame_tool st)).
Proof.
  intros Hv. unfold reversion.
  rewrite (bind_return get_self _ st (self st) st eq_refl).
  rewrite Hv. cbn [Z.eqb].
  destruct (delete_files_returns st) as (Hr & _).
  destruct (delete_files location frame_tool st) as [o st1] eqn:Hd.
  cbn [fst snd] in *. subst o.
  now rewrite (bind_return _ _ _ _ _ Hd).
Qed.

Lemma delete_files_protected (st : state) :
  protected (snd (delete_files location frame_tool st)) = protected st.
Proof.
  destruct (delete_files_cases st)
    as [[-> _]|(c & _ & _ & [[-> _]|[[-> _]| ->]])]; reflexivity.
Qed.

(** The terminal revert: the delete of the row is its last call, no rename
    and no save took place, and the record in memory is as it was. The row is
    gone when the call returns, which it does when there was a row and the
    store accepts the delete; otherwise the exception of the delete comes out
    and the row is as before. *)
Lemma terminal_revert_deletes_record (st : state) :
  version (self st) = 0%Z ->
  self (snd (reversion' true st)) = self st /\
  (exists evs,
     trace (snd (reversion' true st)) = (trace st ++ evs ++ [EvDelete])%list /\
     forallb (fun e => negb (is_rename_or_save e)) evs = true) /\
  match row st with
  | None =>
      fst (reversion' true st) = Raise AssertionError /\
      row (snd (reversion' true st)) = None
  | Some _ =>
      if bool_decide (MetadataStore ∈ protected st)
      then fst (reversion' true st) = Raise DatabaseError /\
           row (snd (reversion' true st)) = row st
      else fst (reversion' true st) = Return tt /\
           row (snd (reversion' true st)) = None
  end.
Proof.
  intros Hv. rewrite (terminal_revert_run st Hv).
  destruct (delete_files_returns st) as (_ & Hself & Hrow & evs & Htr & Hevs).
  pose proof (delete_files_protected st) as Hprot.
  destruct (delete_files location frame_tool st) as [o st1].
  cbn [snd] in *.
  assert (Hshape :
    self (snd (model_delete st1)) = self st1 /\
    trace (snd (model_delete st1)) = (trace st1 ++ [EvDelete])%list).
  { destruct (row st1) as [r|] eqn:Hr.
    - destruct (bool_decide (MetadataStore ∈ protected st1)) eqn:Hp.
      + now rewrite (model_delete_refused st1 r Hr Hp).
      + now rewrite (model_delete_accepted st1 r Hr Hp).
    - now rewrite (model_delete_unsaved st1 Hr). }
  destruct Hshape as [Hs Ht].
  split; [congruence|]. split.
  { exists evs. split; [|exact Hevs]. rewrite Ht, Htr. now rewrite List.app_assoc. }
  rewrite <- Hrow, <- Hprot.
  destruct (row st1) as [r|] eqn:Hr.
  - destruct (bool_decide (MetadataStore ∈ protected st1)) eqn:Hp.
    + rewrite (model_delete_refused st1 r Hr Hp). cbn [fst snd logged row].
      now split.
    + rewrite (model_delete_accepted st1 r Hr Hp). now split.
  - rewrite (model_delete_unsaved st1 Hr). cbn [fst snd logged row]. now split.
Qed.

(** *** Advance *)

(** Advance with the source in place and nothing protected: the whole state
    it leaves. *)
Lemma reversion_advance_ok (st : state) (k : nat) (c : string) :
  files st !! src_of st = Some c ->
  (forall i, (i < k)%nat ->
     path_exists (files st) (candidate location (videofile_name (self st)) i) = true) ->
  path_exists (files st) (candidate location (videofile_name (self st)) k) = false ->
  protected st = ∅ ->
  reversion' false st
  = (Return tt,
     renamed_state location (at_version (version (self st) + Z.of_nat k) st)
       (bak_chain k (videofile_name (self st))) c).
Proof.
  intros Hsrc Hall Hfree Hp.
  destruct (reversion_advance_step st) as (k' & Hall' & Hfree' & ->).
  assert (k' = k) as ->
    by (eapply first_free_unique; eassumption).
  now apply rename_and_save_ok.
Qed.

(** C1. Advance on a record whose file exists: while a file exists at the
    candidate name, [.bak] is appended and the version goes up by one; the
    file is then renamed to the first free candidate, which becomes the name
    of the record. Here the candidates [0 .. k-1] of the chain are taken and
    candidate [k] is free. *)
Theorem advance_renames_to_free_backup (st : state) (k : nat) (c : string) :
  files st !! src_of st = Some c ->
  forallb (fun i => path_exists (files st)
                      (candidate location (videofile_name (self st)) i))
          (seq 0 k) = true ->
  path_exists (files st) (candidate location (videofile_name (self st)) k) = false ->
  protected st = ∅ ->
  let st' := snd (reversion' false st) in
  fst (reversion' false st) = Return tt /\
  videofile_name (self st') = bak_chain k (videofile_name (self st)) /\
  version (self st') = (version (self st) + Z.of_nat k)%Z /\
  gloss_id (self st') = gloss_id (self st) /\
  row st' = Some (self st') /\
  files st' !! src_of st = None /\
  files st' !! join location (bak_chain k (videofile_name (self st))) = Some c /\
  In (EvRename (src_of st) (join location (bak_chain k (videofile_name (self st)))))
     (trace st').
Proof.
  intros Hsrc Hall Hfree Hp st'.
  assert (Hall' : forall i, (i < k)%nat ->
     path_exists (files st) (candidate location (videofile_name (self st)) i) = true).
  { intros i Hi. rewrite forallb_forall in Hall. apply Hall, in_seq. lia. }
  assert (Hk : exists k', k = S k').
  { destruct k as [|k']; [|now exists k'].
    apply path_exists_false in Hfree. cbv [candidate bak_chain] in Hfree.
    congruence. }
  destruct Hk as [k' ->].
  unfold st'. rewrite (reversion_advance_ok st (S k') c Hsrc Hall' Hfree Hp).
  cbn [fst snd]. rewrite renamed_state_row, renamed_state_self.
  cbn [videofile_name version gloss_id at_version self].
  repeat split.
  - apply (renamed_state_src (at_version _ st)). cbn [at_version self videofile_name].
    intros E. apply path_exists_false in Hfree. cbv [candidate] in Hfree.
    rewrite E in Hfree. congruence.
  - apply (renamed_state_dst (at_version _ st)). apply swap_ext_not_backup.
  - apply (renamed_state_logged (at_version _ st)).
Qed.

(** C10. An advance that completes has appended at least one [.bak] and has
    raised the version by exactly the number of suffixes appended; without a
    file at the current name, advance stops in its rename on the missing
    source and changes nothing. *)
Theorem advance_grows_chain (st : state) :
  (fst (reversion' false st) = Return tt ->
   exists k, (1 <= k)%nat /\
     version (self (snd (reversion' false st)))
     = (version (self st) + Z.of_nat k)%Z /\
     videofile_name (self (snd (reversion' false st)))
     = bak_chain k (videofile_name (self st)) /\
     bak_chain k (videofile_name (self st))
     = videofile_name (self st) +:+ bak_chain k "") /\
  (path_exists (files st) (src_of st) = false ->
   reversion' false st
   = (Raise FileNotFoundError, logged (EvRename (src_of st) (src_of st)) st)).
Proof.
  destruct (reversion_advance_step st) as (k & Hall & Hfree & Hrun).
  split.
  - rewrite Hrun. intros Hret.
    destruct (rename_and_save_cases (bak_chain k (videofile_name (self st)))
                (at_version (version (self st) + Z.of_nat k) st))
      as [(e & _ & H)|[(c & _ & H)|[(c & _ & _ & H)|(c & Hc & _ & H)]]];
      rewrite H in Hret |- *; cbn [fst] in Hret; try discriminate.
    cbn [at_version self files videofile_name] in Hc.
    exists k. cbn [snd]. rewrite renamed_state_self.
    cbn [version videofile_name at_version self].
    repeat split; [|apply bak_chain_app].
    destruct k as [|k]; [|lia].
    apply path_exists_false in Hfree. cbv [candidate bak_chain] in Hfree.
    congruence.
  - intros Hmiss.
    assert (k = 0%nat) as ->.
    { destruct k as [|k]; [reflexivity|].
      specialize (Hall 0%nat ltac:(lia)). cbv [candidate bak_chain] in Hall.
      congruence. }
    rewrite Hrun. cbn [bak_chain]. apply path_exists_false in Hmiss.
    unfold rename_and_save.
    rewrite (bind_return get_self _ _ _ _ eq_refl).
    cbn [at_version self videofile_name].
    rewrite (bind_raise _ _ _ _ _
               (os_rename_missing _ _ (at_version _ st) Hmiss)).
    cbv [logged at_version]. cbn [self files protected row trace].
    rewrite Z.add_0_r. now destruct st as [[g v n] fs pr rw tr].
Qed.

(** *** Revert *)

(** C3. Revert on a record of positive version whose name does not end in
    [.bak] raises the [ValueError] of the corrupted chain and leaves the whole
    state as it was: no rename, no unlink, no change of the record or of its
    row. *)
Theorem revert_detects_corrupted_chain (st : state) :
  (0 < version (self st))%Z ->
  endswith ".bak" (videofile_name (self st)) = false ->
  reversion' true st = (Raise ValueError, st).
Proof.
  intros Hv Hend. apply reversion_revert_corrupted; [lia|].
  intros E. pose proof (splitext_app (videofile_name (self st))) as Happ.
  rewrite E in Happ. rewrite <- Happ, endswith_app in Hend. discriminate.
Qed.

(** Revert on a chained name with the source in place and nothing protected:
    the whole state it leaves. *)
Lemma reversion_revert_ok (st : state) (newname c : string) :
  version (self st) <> 0%Z ->
  splitext (videofile_name (self st)) = (newname, ".bak") ->
  files st !! src_of st = Some c ->
  protected st = ∅ ->
  reversion' true st
  = (Return tt,
     renamed_state location (at_version (version (self st) - 1) st) newname c).
Proof.
  intros Hv Hs Hsrc Hp. rewrite (reversion_revert_step st newname Hv Hs).
  now apply rename_and_save_ok.
Qed.

(** *** A rename that fails *)



(** C2. From version 0 and the name [x.mp4], with the file in place, no file
    at [x.mp4.bak] and nothing protected, an advance followed by a revert ends
    normally at version 0 and name [x.mp4] again, saved as such, with the
    content of the file back at its path. *)
Theorem advance_then_revert_restores (st : state) (gid c : string) :
  self st = mkGlossVideo gid 0 "x.mp4" ->
  files st !! join location "x.mp4" = Some c ->
  files st !! join location "x.mp4.bak" = None ->
  protected st = ∅ ->
  let r := (reversion' false ;; reversion' true) st in
  fst r = Return tt /\
  self (snd r) = mkGlossVideo gid 0 "x.mp4" /\
  row (snd r) = Some (mkGlossVideo gid 0 "x.mp4") /\
  files (snd r) !! join location "x.mp4" = Some c.
Proof.
  intros Hself Hsrc Hbak Hp r. unfold r. clear r.
  destruct st as [g fs pr rw tr]. cbn [self files protected] in *. subst g pr.
  set (st := mkState (mkGlossVideo gid 0 "x.mp4") fs ∅ rw tr).
  assert (Hadv : reversion' false st
                 = (Return tt,
                    renamed_state location (at_version 1 st) "x.mp4.bak" c)).
  { apply (reversion_advance_ok st 1 c); [exact Hsrc | | | reflexivity].
    - intros [|i] Hi; [|lia]. apply path_exists_true. now exists c.
    - now apply path_exists_false. }
  rewrite (bind_return _ _ _ _ _ Hadv).
  set (st1 := renamed_state location (at_version 1 st) "x.mp4.bak" c).
  assert (Hself1 : self st1 = mkGlossVideo gid 1 "x.mp4.bak")
    by apply renamed_state_self.
  assert (Hsrc1 : files st1 !! src_of st1 = Some c).
  { rewrite Hself1. cbn [videofile_name].
    apply (renamed_state_dst (at_version 1 st)).
    apply (swap_ext_not_backup location _ "x.mp4" 0). }
  assert (Hp1 : protected st1 = ∅) by apply renamed_state_protected.
  rewrite (reversion_revert_ok st1 "x.mp4" c);
    [| rewrite Hself1; discriminate | now rewrite Hself1 | exact Hsrc1 | exact Hp1].
  cbn [fst snd]. rewrite renamed_state_row, renamed_state_self.
  cbn [at_version self gloss_id version videofile_name]. rewrite Hself1.
  cbn [gloss_id version]. repeat split.
  apply (renamed_state_dst (at_version (1 - 1) st1)).
  intros E. pose proof (endswith_g_swap_ext (src_of (at_version (1 - 1) st1))) as Hg.
  rewrite E, endswith_join in Hg by discriminate. discriminate.
Qed.

(** *** Termination *)

Lemma rename_and_save_terminates (newname : string) (st : state) :
  fst (rename_and_save' newname st) <> OutOfFuel.
Proof.
  destruct (rename_and_save_cases newname st)
    as [(e & _ & ->)|[(c & _ & ->)|[(c & _ & _ & ->)|(c & _ & _ & ->)]]];
    discriminate.
Qed.

(** [reversion] always comes back: the bound on its loop is never reached. *)
Lemma reversion_terminates (revert : bool) (st : state) :
  fst (reversion' revert st) <> OutOfFuel.
Proof.
  destruct revert.
  - destruct (Z.eq_dec (version (self st)) 0%Z) as [Hv|Hv].
    { destruct (terminal_revert_deletes_record st Hv) as (_ & _ & H).
      destruct (row st); [destruct (bool_decide _)|]; destruct H as [-> _];
        discriminate. }
    destruct (string_dec (snd (splitext (videofile_name (self st)))) ".bak")
      as [Hs|Hs].
    + assert (Hsplit : splitext (videofile_name (self st))
                       = (fst (splitext (videofile_name (self st))), ".bak"))
        by (rewrite <- Hs; now destruct (splitext _)).
      rewrite (reversion_revert_step st _ Hv Hsplit).
      apply rename_and_save_terminates.
    + rewrite (reversion_revert_corrupted st Hv Hs). discriminate.
  - destruct (reversion_advance_step st) as (k & _ & _ & ->).
    apply rename_and_save_terminates.
Qed.

(** The terminal revert of a record whose video file is already gone stops
    its [try] block at the first unlink and goes on to the delete of the row:
    the file system stays as it is, poster included. *)
Lemma terminal_revert_video_missing (st : state) :
  version (self st) = 0%Z ->
  files st !! src_of st = None ->
  reversion' true st = model_delete (logged (EvUnlink (src_of st)) st).
Proof.
  intros Hv Hsrc. rewrite (terminal_revert_run st Hv).
  destruct (delete_files_cases st) as [[-> _]|(c & Hc & _)]; [reflexivity|].
  congruence.
Qed.

End VersionChain.

(** ** The claims on the concrete installation *)

(** The two runs of advance the chain-growth test describes. *)
Example advance_x_only :
  let r := reversion media_root tool_ok false st_x_only in
  fst r = Return tt /\
  self (snd r) = mkGlossVideo "gloss-1" 1 "x.mp4.bak" /\
  map_to_list (files (snd r)) = [("/media/x.mp4.bak", "video")].
Proof. vm_compute. repeat split. Qed.

Example advance_x_and_bak :
  let r := reversion media_root tool_ok false st_x_and_bak in
  fst r = Return tt /\
  self (snd r) = mkGlossVideo "gloss-1" 2 "x.mp4.bak.bak" /\
  files (snd r) !! "/media/x.mp4.bak.bak" = Some "video" /\
  files (snd r) !! "/media/x.mp4.bak" = Some "older" /\
  files (snd r) !! "/media/x.mp4" = None.
Proof. vm_compute. repeat split. Qed.

Lemma advance_renames_to_free_backup_witness :
  fst (reversion media_root tool_ok false st_x_and_bak) = Return tt /\
  videofile_name (self (snd (reversion media_root tool_ok false st_x_and_bak)))
  = "x.mp4.bak.bak" /\
  version (self (snd (reversion media_root tool_ok false st_x_and_bak))) = 2%Z.
Proof.
  destruct (advance_renames_to_free_backup media_root tool_ok st_x_and_bak 2 "video")
    as (H1 & H2 & H3 & _); [vm_compute; reflexivity ..|].
  split; [exact H1|]. split; [exact H2 | exact H3].
Defined.

Lemma advance_then_revert_restores_witness :
  fst ((reversion media_root tool_ok false ;; reversion media_root tool_ok true)
         st_x_only) = Return tt /\
  self (snd ((reversion media_root tool_ok false ;; reversion media_root tool_ok true)
         st_x_only)) = mkGlossVideo "gloss-1" 0 "x.mp4".
Proof.
  destruct (advance_then_revert_restores media_root tool_ok st_x_only "gloss-1" "video")
    as (H1 & H2 & _); [vm_compute; reflexivity ..|].
  split; [exact H1 | exact H2].
Defined.

Lemma revert_detects_corrupted_chain_witness :
  reversion media_root tool_ok true st_corrupted = (Raise ValueError, st_corrupted).
Proof.
  apply revert_detects_corrupted_chain; [reflexivity | reflexivity].
Defined.



(** An advance whose rename is refused: the loop has already counted the
    version up to 1. *)
Example advance_refused_rename :
  let r := reversion media_root tool_ok false st_protected in
  fst r = Raise PermissionError /\
  self (snd r) = mkGlossVideo "gloss-1" 1 "x.mp4" /\
  row (snd r) = Some (mkGlossVideo "gloss-1" 0 "x.mp4") /\
  trace (snd r) = [EvRename "/media/x.mp4" "/media/x.mp4.bak"].
Proof. vm_compute. repeat split. Qed.

(** C5 at a record whose video file is gone while its poster is not: the
    terminal revert returns and deletes the row, but the failed unlink of the
    video ends the [try] block, and the poster stays on disk. *)
Theorem terminal_revert_leaves_poster :
  let r := reversion media_root tool_ok true st_orphan_poster in
  fst r = Return tt /\
  row (snd r) = None /\
  path_exists (files (snd r)) "/media/x.jpg" = true /\
  files (snd r) !! "/media/x.jpg" = Some "poster" /\
  trace (snd r) = [EvUnlink "/media/x.mp4"; EvDelete].
Proof. vm_compute. repeat split. Qed.

(** The terminal revert with both files in place removes both. *)
Example terminal_revert_removes_both :
  let st := mkState (mkGlossVideo "gloss-1" 0 "x.mp4")
              (<[ "/media/x.jpg" := "poster" ]> {[ "/media/x.mp4" := "video" ]}) ∅
              (Some (mkGlossVideo "gloss-1" 0 "x.mp4")) [] in
  let r := reversion media_root tool_ok true st in
  fst r = Return tt /\ row (snd r) = None /\ files (snd r) = ∅ /\
  trace (snd r) = [EvUnlink "/media/x.mp4"; EvUnlink "/media/x.jpg"; EvDelete].
Proof. vm_compute. repeat split. Qed.

(** C6 fails as stated: with no poster on disk, [poster_url] calls the frame
    extraction, which writes the poster. *)
Lemma poster_url_triggers_extraction :
  let r := poster_url media_root media_url tool_ok st_x_only in
  extraction_calls (trace st_x_only) = 0%nat /\
  extraction_calls (trace (snd r)) = 1%nat /\
  trace (snd r) = [EvExtractFrame "/media/x.mp4" "/media/x.jpg"] /\
  fst r = Return "/static/x.jpg".
Proof. vm_compute. repeat split. Qed.

(** C7 fails as stated: the extraction reports a failure, and [poster_path]
    answers the poster path although no file is there. *)
Lemma poster_path_hides_failed_extraction :
  let r := poster_path media_root tool_failing true st_x_only in
  tool_failing (files st_x_only) "/media/x.mp4" "/media/x.jpg" = ExtractionFailed /\
  fst r = Return (Some "/media/x.jpg") /\
  path_exists (files (snd r)) "/media/x.jpg" = false.
Proof. vm_compute. repeat split. Qed.

(** An extraction that raises is not caught. *)
Example poster_path_propagates_exception :
  fst (poster_path media_root tool_raising true st_x_only) = Raise ToolError.
Proof. reflexivity. Qed.

Example swap_ext_clip : swap_ext "a/b/clip.mp4" = "a/b/clip.jpg".
Proof. reflexivity. Qed.

Example swap_ext_clip_tar : swap_ext "a/b/clip.tar.mp4" = "a/b/clip.tar.jpg".
Proof. reflexivity. Qed.

Example swap_ext_no_extension : swap_ext "a.b/clip" = "a.b/clip.jpg".
Proof. reflexivity. Qed.

Example swap_ext_hidden : swap_ext "a/.mp4" = "a/.mp4.jpg".
Proof. reflexivity. Qed.

Lemma poster_path_swaps_final_extension_witness :
  swap_ext "/media/a/b/clip.tar.mp4" = "/media/a/b/clip.tar.jpg" /\
  poster_path media_root tool_ok false st_clip = (Return None, st_clip).
Proof.
  destruct (poster_path_swaps_final_extension media_root media_url tool_ok
              "/media/a/b/" "lip.tar" "mp4" "c") as (H1 & H2 & _);
    [reflexivity ..|].
  split; [exact H1 | exact (H2 st_clip eq_refl)].
Defined.

Lemma advance_grows_chain_witness :
  (exists k, (1 <= k)%nat /\
     version (self (snd (reversion media_root tool_ok false st_x_only)))
     = (0 + Z.of_nat k)%Z /\
     videofile_name (self (snd (reversion media_root tool_ok false st_x_only)))
     = bak_chain k "x.mp4" /\
     bak_chain k "x.mp4" = "x.mp4" +:+ bak_chain k "") /\
  reversion media_root tool_ok false st_lost_backup
  = (Raise FileNotFoundError,
     logged (EvRename "/media/x.mp4.bak" "/media/x.mp4.bak") st_lost_backup).
Proof.
  split.
  - apply (proj1 (advance_grows_chain media_root tool_ok st_x_only)).
    vm_compute; reflexivity.
  - apply (proj2 (advance_grows_chain media_root tool_ok st_lost_backup)).
    vm_compute; reflexivity.
Defined.

(** *** [posixpath] on some paths *)

Example split_gloss : PosixPath.split "glossvideo/12345.mp4" = ("glossvideo", "12345.mp4").
Proof. reflexivity. Qed.

Example split_root : PosixPath.split "/x" = ("/", "x").
Proof. reflexivity. Qed.

Example splitext_double : PosixPath.splitext "a/b/clip.tar.mp4" = ("a/b/clip.tar", ".mp4").
Proof. reflexivity. Qed.

Example splitext_dotted_dir : PosixPath.splitext "a.b/clip" = ("a.b/clip", "").
Proof. reflexivity. Qed.

Example splitext_leading_dots : PosixPath.splitext "a/..x.c" = ("a/..x", ".c").
Proof. reflexivity. Qed.

Example splitext_bak : PosixPath.splitext "x.mp4.bak" = ("x.mp4", ".bak").
Proof. reflexivity. Qed.

Example join_media : PosixPath.join "/media" "x.mp4" = "/media/x.mp4".
Proof. reflexivity. Qed.

Example join_absolute : PosixPath.join "/media" "/abs/x.mp4" = "/abs/x.mp4".
Proof. reflexivity. Qed.

(** ** More on strings: cutting, prefixes and [replace] *)

Module PyStrMore.
Import PyStr PyStrFacts.

Lemma length_take (n : nat) (s : string) :
  (n <= String.length s)%nat -> String.length (take n s) = n.
Proof.
  revert s. induction n as [|n IH]; intros [|a s] H; simpl in *; try lia.
  rewrite IH; lia.
Qed.

Lemma drop_0 (s : string) : drop 0 s = s.
Proof. now destruct s. Qed.

Lemma drop_cons (n : nat) (s : string) :
  (n < String.length s)%nat -> exists c post, drop n s = String c post.
Proof.
  revert s. induction n as [|n IH]; intros [|a s] H; simpl in *; try lia.
  - now exists a, s.
  - apply IH. lia.
Qed.

(** Two ways of cutting one string: the shorter head is a head of the longer. *)
Lemma app_eq_app_lt (a x b y : string) :
  a +:+ x = b +:+ y -> (String.length a <= String.length b)%nat ->
  exists m, b = a +:+ m /\ x = m +:+ y.
Proof.
  revert b. induction a as [|c a IH]; intros b E Hlen.
  - exists b. split; [reflexivity | exact E].
  - destruct b as [|d b]; simpl in Hlen; [lia|].
    simpl in E. injection E as -> E.
    destruct (IH b E ltac:(lia)) as (m & -> & ->).
    now exists m.
Qed.


(** *** [startswith] and [occurs] *)

Lemma startswith_app (prefix rest : string) : startswith prefix (prefix +:+ rest) = true.
Proof.
  induction prefix as [|a p IH]; simpl; [now destruct rest|].
  now rewrite Ascii.eqb_refl, IH.
Qed.

Lemma startswith_inv (prefix s : string) :
  startswith prefix s = true -> exists rest, s = prefix +:+ rest.
Proof.
  revert s. induction prefix as [|a p IH]; intros s H.
  - now exists s.
  - destruct s as [|b s]; simpl in H; [discriminate|].
    apply andb_true_iff in H as [Hab H]. apply Ascii.eqb_eq in Hab as ->.
    destruct (IH s H) as (rest & ->). now exists rest.
Qed.

Lemma occurs_false_here (old s : string) :
  occurs old s = false -> startswith old s = false.
Proof. destruct s; simpl; intros H; now apply orb_false_iff in H as [H _]. Qed.

Lemma occurs_false_tail (old : string) (a : ascii) (s : string) :
  occurs old (String a s) = false -> occurs old s = false.
Proof. simpl. intros H. now apply orb_false_iff in H as [_ H]. Qed.

(** *** [replace] *)

(** Passing over the characters of an occurrence. *)
Lemma replace_scan_skip (old new p rest : string) :
  replace_scan old new (String.length p) (p +:+ rest) = replace_scan old new 0 rest.
Proof. induction p as [|a p IH]; simpl; [now destruct rest | exact IH]. Qed.

(** An occurrence at the head is replaced, and the scan goes on after it. *)
Lemma replace_scan_head (old new rest : string) :
  old <> "" ->
  replace_scan old new 0 (old +:+ rest) = new +:+ replace_scan old new 0 rest.
Proof.
  intros Hne. destruct old as [|a old]; [contradiction|].
  change (String a old +:+ rest) with (String a (old +:+ rest)).
  cbn [replace_scan].
  change (String a (old +:+ rest)) with (String a old +:+ rest).
  rewrite startswith_app. cbn [String.length].
  replace (S (String.length old) - 1)%nat with (String.length old) by lia.
  now rewrite replace_scan_skip.
Qed.

(** Where [old] does not occur, nothing changes. *)
Lemma replace_scan_absent (old new s : string) :
  occurs old s = false -> replace_scan old new 0 s = s.
Proof.
  induction s as [|a s IH]; intros H; [reflexivity|].
  cbn [replace_scan]. rewrite (occurs_false_here _ _ H).
  now rewrite IH by (eapply occurs_false_tail; eassumption).
Qed.

(** Replacing a string by itself is the identity. *)
Lemma replace_scan_same (old : string) (s : string) (skip : nat) :
  old <> "" ->
  replace_scan old old skip s
  = if (skip <=? String.length s)%nat then drop skip s else "".
Proof.
  intros Hne. revert skip. induction s as [|a s IH]; intros skip.
  - simpl. now destruct skip.
  - cbn [replace_scan]. destruct skip as [|k].
    + destruct (startswith old (String a s)) eqn:E.
      * rewrite IH. apply startswith_inv in E as (rest & E).
        destruct old as [|b old]; [contradiction|]. simpl in E.
        injection E as -> ->. cbn [String.length].
        replace (S (String.length old) - 1)%nat with (String.length old) by lia.
        rewrite length_app.
        destruct (Nat.leb_spec (String.length old)
                    (String.length old + String.length rest)); [|lia].
        now rewrite drop_app_length.
      * rewrite IH, !drop_0. reflexivity.
    + rewrite IH. reflexivity.
Qed.

End PyStrMore.

(** ** When [splitext] finds an extension *)

Module SplitextMore.
Import PyStr PosixPath PyStrFacts PosixPathFacts PyStrMore.

(** The loop over the leading dots answers [true] only on a character that is
    not a dot, at an index of the range it scans. *)
Lemma skip_leading_dots_true (n : nat) (i : Z) (p : string) :
  (0 <= i)%Z -> (i + Z.of_nat n <= len p)%Z ->
  skip_leading_dots n i p = true ->
  exists pre c post,
    p = pre +:+ String c post /\ (i <= len pre < i + Z.of_nat n)%Z /\ c <> extsep.
Proof.
  revert i. induction n as [|n IH]; intros i Hi Hn H; [discriminate|].
  simpl in H. destruct (negb _) eqn:E.
  - clear IH H. unfold len in Hn.
    assert (Hlt : (Z.to_nat i < String.length p)%nat) by lia.
    destruct (drop_cons _ _ Hlt) as (c & post & Hd).
    pose proof (take_drop (Z.to_nat i) p) as Hp. rewrite Hd in Hp.
    assert (Hlen : len (take (Z.to_nat i) p) = i).
    { unfold len. rewrite length_take; lia. }
    remember (take (Z.to_nat i) p) as pre eqn:Hpre. clear Hpre Hd Hlt.
    exists pre, c, post. split; [now symmetry|].
    split; [lia|]. intros ->. subst p i.
    rewrite slice_char in E. discriminate.
  - destruct (IH (i + 1)%Z ltac:(lia) ltac:(lia) H) as (pre & c & post & Hp & Hr & Hc).
    exists pre, c, post. repeat split; [exact Hp | lia | lia | exact Hc].
Qed.

(** An extension found by [splitext] follows a stem whose file name has a
    character that is not a dot. *)
Lemma splitext_ext_inv (p root e : string) :
  splitext p = (root, String extsep e) ->
  exists a c b,
    root = a +:+ String c b /\ p = root +:+ String extsep e /\
    c <> extsep /\ c <> sep /\ ~ has sep b /\ ~ has extsep e /\ ~ has sep e.
Proof.
  unfold splitext.
  destruct (Z.ltb_spec (rfind sep p) (rfind extsep p)) as [Hlt|];
    [|rewrite slice_to_0; discriminate].
  destruct (skip_leading_dots _ _ _) eqn:Hskip;
    [|rewrite slice_to_0; discriminate].
  pose proof (rfind_range sep p) as Hrs. pose proof (rfind_range extsep p) as Hre.
  destruct (rfind_split extsep p ltac:(lia)) as (pre0 & post0 & Hp0 & Hi0 & Hpost0).
  intros E.
  assert (Hroot : root = pre0 /\ e = post0).
  { rewrite Hi0 in E. fold (len pre0) in E. rewrite Hp0 in E.
    rewrite slice_to_app, slice_from_app in E. injection E as <- <-. now split. }
  destruct Hroot as [-> ->]. clear E.
  apply skip_leading_dots_true in Hskip as (pre & c & post & Hp & Hr & Hc);
    [|lia|lia].
  assert (Hle : (String.length pre <= String.length pre0)%nat)
    by (unfold len in *; lia).
  assert (E : pre +:+ String c post = pre0 +:+ String extsep post0) by congruence.
  destruct (app_eq_app_lt _ _ _ _ E Hle) as (m & Hm & Hx).
  destruct m as [|c' b].
  { exfalso. rewrite app_nil_r in Hm. subst pre0. unfold len in *. lia. }
  simpl in Hx. injection Hx as <- Hpost.
  assert (Hnosep : ~ has sep (String c post)).
  { intros Hs. apply (rfind_app_present sep pre) in Hs.
    rewrite <- Hp in Hs. unfold len in *. lia. }
  rewrite Hpost in Hnosep. simpl in Hnosep. rewrite has_app in Hnosep. simpl in Hnosep.
  exists pre, c, b. repeat split; tauto.
Qed.

(** The two directions together: where [splitext] cuts. *)
Lemma splitext_ext_iff (p root e : string) :
  splitext p = (root, String extsep e) <->
  exists a c b,
    root = a +:+ String c b /\ p = root +:+ String extsep e /\
    c <> extsep /\ c <> sep /\ ~ has sep b /\ ~ has extsep e /\ ~ has sep e.
Proof.
  split; [apply splitext_ext_inv|].
  intros (a & c & b & -> & -> & Hc & Hs & Hb & He & Hse).
  now apply splitext_ext.
Qed.

(** A prefix in front of a path with an extension does not change the cut. *)
Lemma splitext_prefix (pfx a b e : string) (c : ascii) :
  c <> extsep -> c <> sep -> ~ has sep b -> ~ has extsep e -> ~ has sep e ->
  splitext (pfx +:+ (a +:+ String c b) +:+ String extsep e)
  = (pfx +:+ a +:+ String c b, String extsep e).
Proof.
  intros Hc Hs Hb He Hse.
  rewrite <- (app_assoc pfx (a +:+ String c b)), <- (app_assoc pfx a).
  now apply splitext_ext.
Qed.

End SplitextMore.

(** ** The mobile URL *)

Section MobileUrl.
Import PyStr PyStrFacts PyStrMore.

Variable storage_url : string -> string.
Variable MEDIA_URL : string.
Variable MEDIA_MOBILE_URL : string.

Abbreviation mobile_url_of g := (get_mobile_url storage_url MEDIA_URL MEDIA_MOBILE_URL g).
Abbreviation url_of g := (get_absolute_url storage_url g).

Lemma replace_head (old new rest : string) :
  String.eqb old "" = false ->
  replace old new (old +:+ rest) = new +:+ replace old new rest.
Proof.
  intros H. unfold replace. rewrite H. apply replace_scan_head.
  intros ->. discriminate.
Qed.

Lemma replace_absent (old new s : string) :
  String.eqb old "" = false -> occurs old s = false -> replace old new s = s.
Proof. intros H Ho. unfold replace. rewrite H. now apply replace_scan_absent. Qed.

Lemma replace_empty_same (s : string) : replace_empty "" s = s.
Proof. induction s as [|a s IH]; simpl; [reflexivity | now rewrite IH]. Qed.

(** X1. For a URL that starts with a non-empty [MEDIA_URL], the mobile URL
    starts with [MEDIA_MOBILE_URL] instead, followed by the rest of the URL
    with its own occurrences of [MEDIA_URL] replaced as well; when the rest
    holds no occurrence, it follows unchanged. *)
Theorem get_mobile_url_swaps_prefix (g : GlossVideo) (rest : string) :
  String.eqb MEDIA_URL "" = false ->
  url_of g = MEDIA_URL +:+ rest ->
  mobile_url_of g = MEDIA_MOBILE_URL +:+ replace MEDIA_URL MEDIA_MOBILE_URL rest /\
  (occurs MEDIA_URL rest = false -> mobile_url_of g = MEDIA_MOBILE_URL +:+ rest).
Proof.
  intros Hne Hurl. unfold get_mobile_url. cbv zeta. rewrite Hurl.
  rewrite (replace_head _ _ _ Hne). split; [reflexivity|].
  intros Ho. now rewrite (replace_absent _ _ _ Hne Ho).
Qed.

(** X2. A URL in which the non-empty [MEDIA_URL] does not occur is its own
    mobile URL. *)
Theorem get_mobile_url_outside_media (g : GlossVideo) :
  String.eqb MEDIA_URL "" = false ->
  occurs MEDIA_URL (url_of g) = false ->
  mobile_url_of g = url_of g.
Proof. intros Hne Ho. unfold get_mobile_url. cbv zeta. now apply replace_absent. Qed.

End MobileUrl.

(** X3. When the two settings are the same string, the mobile URL is the
    URL, whatever the string, the empty one included. *)
Theorem get_mobile_url_same_settings
    (storage_url : string -> string) (media : string) (g : GlossVideo) :
  get_mobile_url storage_url media media g = get_absolute_url storage_url g.
Proof.
  unfold get_mobile_url. cbv zeta. unfold PyStr.replace.
  destruct (String.eqb_spec media "") as [->|Hne].
  - apply replace_empty_same.
  - rewrite PyStrMore.replace_scan_same by exact Hne. simpl.
    apply PyStrMore.drop_0.
Qed.

Lemma get_mobile_url_swaps_prefix_witness :
  get_mobile_url media_url "/static/" "/mobile/" (mkGlossVideo "gloss-1" 0 "x.mp4")
  = "/mobile/x.mp4".
Proof.
  apply (proj2 (get_mobile_url_swaps_prefix media_url "/static/" "/mobile/"
                  (mkGlossVideo "gloss-1" 0 "x.mp4") "x.mp4" eq_refl eq_refl)).
  reflexivity.
Defined.

Lemma get_mobile_url_outside_media_witness :
  get_mobile_url media_url "/media/" "/mobile/" (mkGlossVideo "gloss-1" 0 "x.mp4")
  = "/static/x.mp4".
Proof.
  apply (get_mobile_url_outside_media media_url "/media/" "/mobile/"
           (mkGlossVideo "gloss-1" 0 "x.mp4")); reflexivity.
Defined.

(** Every occurrence is replaced, not only the leading one. *)
Example get_mobile_url_inner_occurrence :
  get_mobile_url (fun n => "/media/" +:+ n) "/media/" "/m/"
    (mkGlossVideo "gloss-1" 0 "glossvideo/media/x.mp4")
  = "/m/glossvideo/m/x.mp4".
Proof. reflexivity. Qed.

(** ** More on the naming scheme *)

Module NamingMore.
Import PyStr PosixPath PyStrFacts PosixPathFacts NamingScheme PyStrMore.

(** What follows the last separator is the tail of [split]. *)
Lemma split_tail_app (x base : string) :
  ~ has sep base -> snd (split (x +:+ String sep base)) = base.
Proof.
  intros Hb. unfold split. cbn [snd].
  rewrite (rfind_last sep x base Hb).
  replace (x +:+ String sep base) with ((x +:+ String sep "") +:+ base)
    by (now rewrite app_assoc).
  replace (Z.of_nat (String.length x) + 1)%Z with (len (x +:+ String sep ""))
    by (unfold len; rewrite length_app; simpl; lia).
  apply slice_from_app.
Qed.

Lemma endswith_char_inv (c : ascii) (s : string) :
  endswith_char c s = true -> exists x, s = x +:+ String c "".
Proof.
  induction s as [|a s IH]; [discriminate|].
  destruct s as [|b s].
  - simpl. intros H. apply Ascii.eqb_eq in H as ->. now exists "".
  - intros H. destruct (IH H) as (x & Hx). exists (String a x).
    simpl. now rewrite <- Hx.
Qed.

Lemma split_no_sep (name : string) :
  contains sep name = false -> split name = ("", name).
Proof.
  intros H. apply contains_false in H. unfold split.
  rewrite (rfind_absent _ _ H). change (-1 + 1)%Z with 0%Z.
  rewrite slice_to_0. cbn [String.eqb negb andb].
  unfold slice_from, bound, len. simpl.
  replace (Z.to_nat _) with 0%nat by lia. now rewrite drop_0.
Qed.

(** X4. The name [get_valid_name] answers has the base name of the name it
    was given: only directories are put in front of it. *)
Theorem get_valid_name_keeps_basename (name : string) :
  snd (split (get_valid_name name)) = snd (split name).
Proof.
  pose proof (split_tail_no_sep name) as Hbase.
  assert (Hg : get_valid_name name
               = join (fst (split name))
                   (join (partition_prefix (snd (split name))) (snd (split name)))).
  { unfold get_valid_name. destruct (split name) as [d b]. simpl.
    now rewrite slice_to_2. }
  rewrite Hg, (join_prefix_basename _ Hbase).
  set (dir := fst (split name)). set (base := snd (split name)) in *.
  destruct (String.eqb_spec base "") as [E|E].
  - rewrite E. unfold join. cbn [startswith_char].
    destruct (String.eqb_spec dir "") as [->|Hd]; [reflexivity|].
    cbn [orb]. destruct (endswith_char sep dir) eqn:He.
    + destruct (endswith_char_inv _ _ He) as (x & ->).
      rewrite app_nil_r. now apply split_tail_app.
    + now apply split_tail_app.
  - rewrite join_is_prefix, <- app_assoc.
    now apply split_tail_app.
Qed.

(** X5. A bare file name, without any separator, goes into the directory
    named after its first two characters, or after itself when it has only
    one. *)
Theorem get_valid_name_bare (name : string) :
  contains sep name = false -> String.eqb name "" = false ->
  get_valid_name name = partition_prefix name +:+ String sep name.
Proof.
  intros Hc Hne. unfold get_valid_name. rewrite (split_no_sep _ Hc).
  rewrite slice_to_2, (join_prefix_basename _ (contains_false _ _ Hc)), Hne.
  unfold join.
  destruct name as [|a [|b r]]; [discriminate| |]; simpl in Hc |- *;
    apply orb_false_iff in Hc as [Ha _]; rewrite Ha; reflexivity.
Qed.

Lemma get_valid_name_bare_witness :
  get_valid_name "12345.mp4" = "12/12345.mp4".
Proof. apply get_valid_name_bare; reflexivity. Defined.

End NamingMore.

(** ** More on the poster *)

Section PosterMore.
Import PyStr PosixPath PyStrFacts PosixPathFacts PyStrMore SplitextMore Primitives.

Variable location : string.
Variable frame_tool : gmap string string -> string -> string -> tool_result.

Abbreviation video_of st := (videofile_path location (self st)).
Abbreviation poster_of st := (swap_ext (videofile_path location (self st))).
Abbreviation poster_path' := (poster_path location frame_tool).

Lemma extraction_calls_app (t evs : list event) :
  extraction_calls (t ++ evs) = (extraction_calls t + extraction_calls evs)%nat.
Proof. unfold extraction_calls. now rewrite filter_app, List.length_app. Qed.

(** X6. Once an extraction has written the poster, the next call of
    [poster_path] finds it: two calls in a row answer the poster path, leave
    the state of a single call and have called the extraction once. *)
Theorem poster_path_second_call_is_hit (st : state) (frame : string) :
  path_exists (files st) (poster_of st) = false ->
  frame_tool (files st) (video_of st) (poster_of st) = Extracted frame ->
  (poster_path' true ;; poster_path' true) st = poster_path' true st /\
  fst (poster_path' true st) = Return (Some (poster_of st)) /\
  files (snd (poster_path' true st)) !! poster_of st = Some frame /\
  extraction_calls (trace (snd ((poster_path' true ;; poster_path' true) st)))
  = (extraction_calls (trace st) + 1)%nat.
Proof.
  intros Hmiss Htool.
  pose proof (poster_path_miss location frame_tool st Hmiss) as Hrun.
  rewrite Htool in Hrun.
  set (st1 := mkState (self st) (<[poster_of st := frame]> (files st)) (protected st)
                (row st) (trace st ++ [EvExtractFrame (video_of st) (poster_of st)])) in *.
  assert (Hhit : poster_path' true st1 = (Return (Some (poster_of st)), st1)).
  { apply (poster_path_hit location frame_tool true st1).
    apply path_exists_true. exists frame. apply lookup_insert_eq. }
  rewrite (bind_return _ _ _ _ _ Hrun), Hhit, Hrun. cbn [fst snd].
  repeat split.
  - apply lookup_insert_eq.
  - unfold st1. cbn [trace]. now rewrite extraction_calls_app.
Qed.

(** X7. For a name with an extension, the extension swap goes through any
    prefix: the poster of the prefixed name is the prefixed poster of the
    name. The poster path under the storage location and the poster URL under
    a URL prefix therefore carry the same relative poster name. *)
Theorem swap_ext_under_prefix (a b e : string) (c : ascii) :
  Ascii.eqb c extsep = false -> Ascii.eqb c sep = false ->
  contains sep b = false -> contains extsep e = false -> contains sep e = false ->
  let name := (a +:+ String c b) +:+ String extsep e in
  swap_ext name = (a +:+ String c b) +:+ ".jpg" /\
  (forall pfx, swap_ext (pfx +:+ name) = pfx +:+ swap_ext name) /\
  swap_ext (join location name) = join location (swap_ext name).
Proof.
  intros Hc Hs Hb He Hse name.
  apply Ascii.eqb_neq in Hc, Hs. apply contains_false in Hb, He, Hse.
  assert (E : swap_ext name = (a +:+ String c b) +:+ ".jpg").
  { unfold swap_ext, name. now rewrite splitext_ext. }
  assert (P : forall pfx, swap_ext (pfx +:+ name) = pfx +:+ swap_ext name).
  { intros pfx. rewrite E. unfold swap_ext, name.
    rewrite splitext_prefix by assumption. cbn [fst].
    now rewrite !app_assoc. }
  split; [exact E|]. split; [exact P|].
  rewrite !join_is_prefix, P. f_equal.
  unfold join_prefix. rewrite E. unfold name.
  now destruct a.
Qed.

End PosterMore.

Lemma poster_path_second_call_is_hit_witness :
  (poster_path media_root tool_ok true ;; poster_path media_root tool_ok true) st_x_only
  = poster_path media_root tool_ok true st_x_only.
Proof.
  apply (poster_path_second_call_is_hit media_root tool_ok st_x_only "frame");
    reflexivity.
Defined.

Lemma swap_ext_under_prefix_witness :
  swap_ext (PosixPath.join media_root "a/b/clip.tar.mp4")
  = PosixPath.join media_root "a/b/clip.tar.jpg".
Proof.
  apply (swap_ext_under_prefix media_root "a/b/" "lip.tar" "mp4" "c");
    reflexivity.
Defined.

(** ** More on the version chain *)

Section VersionChainMore.
Import PyStr PosixPath PyStrFacts PosixPathFacts BackupChain Primitives.
Import PyStrMore SplitextMore.

Variable location : string.
Variable frame_tool : gmap string string -> string -> string -> tool_result.

Abbreviation src_of st := (join location (videofile_name (self st))).
Abbreviation reversion' := (reversion location frame_tool).
Abbreviation rename_and_save' := (rename_and_save location frame_tool).
Abbreviation delete_files' := (delete_files location frame_tool).

(** *** Names that carry the suffix *)

Lemma splitext_chained (a b : string) (c : ascii) :
  c <> extsep -> c <> sep -> ~ has sep b ->
  splitext ((a +:+ String c b) +:+ ".bak") = (a +:+ String c b, ".bak").
Proof.
  intros Hc Hs Hb. apply splitext_ext; try assumption;
    simpl; intros H; decompose [or] H; try discriminate; assumption.
Qed.

Lemma join_stem (a b x : string) (c : ascii) :
  join location ((a +:+ String c b) +:+ x) = join location (a +:+ String c b) +:+ x.
Proof.
  rewrite (join_is_prefix location ((a +:+ String c b) +:+ x)),
    (join_is_prefix location (a +:+ String c b)).
  rewrite (app_assoc (join_prefix location (a +:+ String c b)) (a +:+ String c b) x).
  assert (join_prefix location ((a +:+ String c b) +:+ x)
          = join_prefix location (a +:+ String c b)) as ->
    by (unfold join_prefix; destruct a; simpl; reflexivity).
  reflexivity.
Qed.

Lemma swap_ext_join_bak (a b : string) (c : ascii) :
  c <> extsep -> c <> sep -> ~ has sep b ->
  swap_ext (join location ((a +:+ String c b) +:+ ".bak"))
  = join location (a +:+ String c b) +:+ ".jpg".
Proof.
  intros Hc Hs Hb. rewrite join_stem. unfold swap_ext.
  rewrite (join_is_prefix location (a +:+ String c b)).
  rewrite <- (app_assoc (join_prefix location (a +:+ String c b)) a).
  rewrite splitext_ext; try assumption; [reflexivity| |];
    simpl; intros H; decompose [or] H; try discriminate; assumption.
Qed.

Lemma app_neq_self (s x : string) : x <> "" -> s +:+ x <> s.
Proof.
  intros Hx E. apply (f_equal String.length) in E. rewrite length_app in E.
  destruct x; [contradiction | simpl in E; lia].
Qed.

(** The name is chained: a stem whose file name has a character other than
    the dot, followed by [.bak]. *)
Lemma chained_iff_splitext (n : string) :
  snd (splitext n) = ".bak" <->
  exists a c b,
    n = (a +:+ String c b) +:+ ".bak" /\ c <> extsep /\ c <> sep /\ ~ has sep b.
Proof.
  split.
  - intros E. destruct (splitext n) as [root ext] eqn:Hs. cbn [snd] in E. subst ext.
    apply splitext_ext_inv in Hs as (a & c & b & -> & -> & Hc & Hsep & Hb & _).
    now exists a, c, b.
  - intros (a & c & b & -> & Hc & Hs & Hb). now rewrite splitext_chained.
Qed.

Lemma renamed_state_poster_gone (st : state) (newname c : string) :
  files (renamed_state location st newname c) !! swap_ext (src_of st) = None.
Proof.
  cbv [renamed_state]. destruct (path_exists _ _) eqn:E; cbn [files].
  - apply lookup_delete_eq.
  - now apply path_exists_false.
Qed.

Lemma rename_and_save_not_value_error (newname : string) (st : state) :
  fst (rename_and_save' newname st) <> Raise ValueError.
Proof.
  destruct (rename_and_save_cases location frame_tool newname st)
    as [(e & [-> | ->] & ->)|[(c & _ & ->)|[(c & _ & _ & ->)|(c & _ & _ & ->)]]];
    discriminate.
Qed.

(** *** Revert *)

(** X8. On a record whose version is not 0, revert raises [ValueError]
    exactly when the name is not a stem followed by [.bak] in which the file
    name of the stem has a character other than the dot: a name such as
    [.bak] or [dir/..bak] counts as corrupted although it ends in [.bak]. *)
Theorem revert_raises_iff_not_chained (st : state) :
  version (self st) <> 0%Z ->
  (fst (reversion' true st) = Raise ValueError <->
   ~ exists a c b,
       videofile_name (self st) = (a +:+ String c b) +:+ ".bak" /\
       c <> extsep /\ c <> sep /\ ~ has sep b).
Proof.
  intros Hv. rewrite <- chained_iff_splitext. split.
  - intros H E.
    assert (Hsplit : splitext (videofile_name (self st))
                     = (fst (splitext (videofile_name (self st))), ".bak"))
      by (rewrite <- E; now destruct (splitext _)).
    rewrite (reversion_revert_step location frame_tool st _ Hv Hsplit) in H.
    now apply rename_and_save_not_value_error in H.
  - intros Hn. now rewrite (reversion_revert_corrupted location frame_tool st Hv Hn).
Qed.

(** X9. Revert on a chained name, with the file in place and nothing
    protected: the call returns, the record is saved one version down under
    the name without its last [.bak], and the file is at the path of that
    name whatever was there before; nothing is left at the old path nor at
    the path of its poster. *)
Theorem revert_restores_previous_name
    (st : state) (a b content : string) (c : ascii) :
  Ascii.eqb c extsep = false -> Ascii.eqb c sep = false ->
  contains sep b = false ->
  videofile_name (self st) = (a +:+ String c b) +:+ ".bak" ->
  Z.eqb (version (self st)) 0 = false ->
  files st !! src_of st = Some content ->
  protected st = ∅ ->
  let st' := snd (reversion' true st) in
  fst (reversion' true st) = Return tt /\
  self st'
  = mkGlossVideo (gloss_id (self st)) (version (self st) - 1) (a +:+ String c b) /\
  row st' = Some (self st') /\
  files st' !! join location (a +:+ String c b) = Some content /\
  files st' !! src_of st = None /\
  files st' !! swap_ext (src_of st) = None.
Proof.
  intros Hc Hs Hb Hname Hv Hsrc Hp st'. unfold st'. clear st'.
  apply Ascii.eqb_neq in Hc, Hs. apply contains_false in Hb. apply Z.eqb_neq in Hv.
  rewrite (reversion_revert_ok location frame_tool st (a +:+ String c b) content);
    [| exact Hv | rewrite Hname; now apply splitext_chained | exact Hsrc | exact Hp].
  cbn [fst snd]. rewrite renamed_state_row, renamed_state_self.
  cbn [at_version self gloss_id version videofile_name].
  repeat split.
  - apply (renamed_state_dst location (at_version _ st)).
    cbn [at_version self videofile_name]. rewrite Hname.
    rewrite swap_ext_join_bak by assumption. now apply app_neq_self.
  - apply (renamed_state_src location (at_version _ st)).
    cbn [at_version self videofile_name]. rewrite Hname, join_stem.
    intros E. symmetry in E. revert E. now apply app_neq_self.
  - apply (renamed_state_poster_gone (at_version _ st)).
Qed.

(** *** Round trips *)

(** X10. Advance then revert, for any name whose file name has a character
    other than the dot and any version from 0 on, with the file in place, no
    file at the name followed by [.bak] and nothing protected: both calls
    return, the record and its saved row are as before the two calls, and the
    file is back at its path with nothing left at the backup path. *)
Theorem advance_then_revert_round_trip
    (st : state) (a b content : string) (c : ascii) :
  Ascii.eqb c extsep = false -> Ascii.eqb c sep = false ->
  contains sep b = false ->
  videofile_name (self st) = a +:+ String c b ->
  (0 <=? version (self st))%Z = true ->
  files st !! src_of st = Some content ->
  files st !! join location ((a +:+ String c b) +:+ ".bak") = None ->
  protected st = ∅ ->
  let r := (reversion' false ;; reversion' true) st in
  fst r = Return tt /\
  self (snd r) = self st /\
  row (snd r) = Some (self st) /\
  files (snd r) !! src_of st = Some content /\
  files (snd r) !! join location ((a +:+ String c b) +:+ ".bak") = None.
Proof.
  intros Hc Hs Hb Hname Hv Hsrc Hbak Hp r. unfold r. clear r.
  apply Ascii.eqb_neq in Hc, Hs. apply contains_false in Hb. apply Z.leb_le in Hv.
  destruct st as [[gid v n] fs pr rw tr].
  cbn [self files protected videofile_name version gloss_id] in *. subst n pr.
  set (stem := a +:+ String c b) in *.
  set (st := mkState (mkGlossVideo gid v stem) fs ∅ rw tr).
  assert (Hadv : reversion' false st
                 = (Return tt,
                    renamed_state location (at_version (v + 1) st)
                      (stem +:+ ".bak") content)).
  { apply (reversion_advance_ok location frame_tool st 1 content);
      [exact Hsrc | | | reflexivity].
    - intros [|i] Hi; [|lia]. apply path_exists_true. now exists content.
    - now apply path_exists_false. }
  rewrite (bind_return _ _ _ _ _ Hadv).
  set (st1 := renamed_state location (at_version (v + 1) st) (stem +:+ ".bak") content).
  assert (Hself1 : self st1 = mkGlossVideo gid (v + 1) (stem +:+ ".bak"))
    by apply renamed_state_self.
  assert (Hsrc1 : files st1 !! src_of st1 = Some content).
  { rewrite Hself1. cbn [videofile_name].
    apply (renamed_state_dst location (at_version (v + 1) st)).
    apply (swap_ext_not_backup location _ stem 0). }
  assert (Hp1 : protected st1 = ∅) by apply renamed_state_protected.
  rewrite (reversion_revert_ok location frame_tool st1 stem content);
    [| rewrite Hself1; cbn [version]; lia
     | rewrite Hself1; now apply splitext_chained
     | exact Hsrc1 | exact Hp1].
  cbn [fst snd]. rewrite renamed_state_row, renamed_state_self.
  cbn [at_version self gloss_id version videofile_name]. rewrite Hself1.
  cbn [gloss_id version]. replace (v + 1 - 1)%Z with v by lia.
  repeat split.
  - apply (renamed_state_dst location (at_version _ st1)).
    cbn [at_version self videofile_name]. rewrite Hself1. cbn [videofile_name].
    unfold stem. rewrite swap_ext_join_bak by assumption. now apply app_neq_self.
  - replace (join location (stem +:+ ".bak")) with (src_of (at_version v st1))
      by (cbn [at_version self videofile_name]; now rewrite Hself1).
    apply (renamed_state_src location (at_version _ st1)).
    cbn [at_version self videofile_name]. rewrite Hself1. cbn [videofile_name].
    unfold stem. rewrite join_stem. intros E. symmetry in E. revert E.
    now apply app_neq_self.
Qed.

(** X11. Revert then advance, for any chained name and any version other
    than 0, with the file in place and nothing protected: both calls return,
    the record and its saved row are as before the two calls, and the file is
    back at its path. Whatever file was at the name without the suffix has
    been replaced on the way and is gone. *)
Theorem revert_then_advance_round_trip
    (st : state) (a b content : string) (c : ascii) :
  Ascii.eqb c extsep = false -> Ascii.eqb c sep = false ->
  contains sep b = false ->
  videofile_name (self st) = (a +:+ String c b) +:+ ".bak" ->
  Z.eqb (version (self st)) 0 = false ->
  files st !! src_of st = Some content ->
  protected st = ∅ ->
  let r := (reversion' true ;; reversion' false) st in
  fst r = Return tt /\
  self (snd r) = self st /\
  row (snd r) = Some (self st) /\
  files (snd r) !! src_of st = Some content /\
  files (snd r) !! join location (a +:+ String c b) = None.
Proof.
  intros Hc Hs Hb Hname Hv Hsrc Hp r. unfold r. clear r.
  apply Ascii.eqb_neq in Hc, Hs. apply contains_false in Hb. apply Z.eqb_neq in Hv.
  destruct st as [[gid v n] fs pr rw tr].
  cbn [self files protected videofile_name version gloss_id] in *. subst n pr.
  set (stem := a +:+ String c b) in *.
  set (st := mkState (mkGlossVideo gid v (stem +:+ ".bak")) fs ∅ rw tr).
  assert (Hrev : reversion' true st
                 = (Return tt,
                    renamed_state location (at_version (v - 1) st) stem content)).
  { apply (reversion_revert_ok location frame_tool st stem content);
      [exact Hv | now apply splitext_chained | exact Hsrc | reflexivity]. }
  rewrite (bind_return _ _ _ _ _ Hrev).
  set (st1 := renamed_state location (at_version (v - 1) st) stem content).
  assert (Hself1 : self st1 = mkGlossVideo gid (v - 1) stem)
    by apply renamed_state_self.
  assert (Hsrc1 : files st1 !! src_of st1 = Some content).
  { rewrite Hself1. cbn [videofile_name].
    apply (renamed_state_dst location (at_version (v - 1) st)).
    unfold st. cbn [at_version self videofile_name]. unfold stem.
    rewrite swap_ext_join_bak by assumption. now apply app_neq_self. }
  assert (Hfree1 : files st1 !! join location (stem +:+ ".bak") = None).
  { replace (join location (stem +:+ ".bak")) with (src_of (at_version (v - 1) st))
      by reflexivity.
    apply (renamed_state_src location (at_version (v - 1) st)).
    unfold st. cbn [at_version self videofile_name]. unfold stem. rewrite join_stem.
    intros E. symmetry in E. revert E. now apply app_neq_self. }
  assert (Hp1 : protected st1 = ∅) by apply renamed_state_protected.
  rewrite (reversion_advance_ok location frame_tool st1 1 content);
    [| exact Hsrc1
     | intros [|i] Hi; [|lia]; apply path_exists_true; exists content;
       rewrite Hself1 in Hsrc1 |- *; exact Hsrc1
     | apply path_exists_false; rewrite Hself1; exact Hfree1
     | exact Hp1].
  cbn [fst snd]. rewrite renamed_state_row, renamed_state_self.
  cbn [at_version self gloss_id version videofile_name]. rewrite Hself1.
  cbn [gloss_id version videofile_name bak_chain].
  replace (v - 1 + Z.of_nat 1)%Z with v by lia.
  repeat split.
  - apply (renamed_state_dst location (at_version _ st1)).
    cbn [at_version self videofile_name]. rewrite Hself1. cbn [videofile_name].
    apply (swap_ext_not_backup location _ stem 0).
  - replace (join location stem) with (src_of (at_version v st1))
      by (cbn [at_version self videofile_name]; now rewrite Hself1).
    apply (renamed_state_src location (at_version _ st1)).
    cbn [at_version self videofile_name]. rewrite Hself1. cbn [videofile_name].
    unfold stem. rewrite join_stem. now apply app_neq_self.
Qed.

(** *** The loop of advance *)

(** X12. The loop that looks for a backup name stops: on any file system it
    ends at the first name of the chain at which no file exists, after at
    most as many rounds as there are files, and any larger bound on its
    rounds gives the same name and version. *)
Theorem advance_loop_finds_first_free (fs : gmap string string) (v : Z) (n : string) :
  exists k,
    (k <= size fs)%nat /\
    (forall fuel, (size fs < fuel)%nat ->
       find_backup_name location fuel fs v n
       = Some ((v + Z.of_nat k)%Z, bak_chain k n)) /\
    (forall i, (i < k)%nat -> path_exists fs (candidate location n i) = true) /\
    path_exists fs (candidate location n k) = false.
Proof.
  destruct (find_backup_name_total location fs v n) as (k & _ & Hall & Hfree).
  exists k. split; [now apply (candidates_bounded location fs n)|].
  split; [|now split].
  intros fuel Hfuel.
  pose proof (find_backup_name_spec location fs fuel v n) as H.
  destruct (find_backup_name _ _ _ _ _) as [[v' n']|].
  - destruct H as (k' & _ & -> & -> & Hall' & Hfree').
    now rewrite (first_free_unique location fs n k' k Hall' Hfree' Hall Hfree).
  - apply candidates_bounded in H. lia.
Qed.

(** *** What a run of [reversion] leaves alone *)



Lemma rename_and_save_frame (newname : string) (st : state) (p : string) :
  p <> src_of st -> p <> join location newname -> p <> swap_ext (src_of st) ->
  files (snd (rename_and_save' newname st)) !! p = files st !! p.
Proof.
  intros Hs Hd Hp.
  assert (Hren : forall c,
    files (renamed_state location st newname c) !! p = files st !! p).
  { intros c. cbv [renamed_state]. destruct (path_exists _ _); cbn [files];
      rewrite ?(lookup_delete_ne _ (swap_ext (src_of st))) by congruence;
      rewrite lookup_insert_ne by congruence;
      now rewrite lookup_delete_ne by congruence. }
  destruct (rename_and_save_cases location frame_tool newname st)
    as [(e & _ & ->)|[(c & _ & ->)|[(c & _ & _ & ->)|(c & _ & _ & ->)]]];
    cbn [snd logged files].
  - reflexivity.
  - rewrite lookup_insert_ne by congruence. now rewrite lookup_delete_ne by congruence.
  - apply (Hren c).
  - apply Hren.
Qed.

Lemma delete_files_frame (st : state) (p : string) :
  p <> src_of st -> p <> swap_ext (src_of st) ->
  files (snd (delete_files' st)) !! p = files st !! p.
Proof.
  intros Hs Hp.
  destruct (delete_files_cases location frame_tool st)
    as [[-> _]|(c & _ & _ & [[-> _]|[[-> _]| ->]])]; cbn [snd logged files].
  - reflexivity.
  - now rewrite lookup_delete_ne by congruence.
  - now rewrite lookup_delete_ne by congruence.
  - rewrite lookup_delete_ne by congruence. now rewrite lookup_delete_ne by congruence.
Qed.

(** X14. Whatever its outcome, a run of [reversion] leaves every file as it
    was, other than the source of the rename, the video at the path of its
    file field, the poster next to that path, and the target of the rename:
    the name without its extension on revert, a name of the [.bak] chain on
    advance. *)
Theorem reversion_leaves_other_files (revert : bool) (st : state) (p : string) :
  p <> join location (videofile_name (self st)) ->
  p <> videofile_path location (self st) ->
  p <> swap_ext (videofile_path location (self st)) ->
  (if revert then p <> join location (fst (splitext (videofile_name (self st))))
   else forall k, p <> candidate location (videofile_name (self st)) k) ->
  files (snd (reversion' revert st)) !! p = files st !! p.
Proof.
  intros Hs _ Hp Hd. destruct revert.
  - destruct (Z.eq_dec (version (self st)) 0%Z) as [Hv|Hv].
    { rewrite (terminal_revert_run location frame_tool st Hv).
      destruct (model_delete_shape (snd (delete_files' st))) as (_ & -> & _).
      now apply delete_files_frame. }
    destruct (string_dec (snd (splitext (videofile_name (self st)))) ".bak")
      as [Hx|Hx].
    + assert (Hsplit : splitext (videofile_name (self st))
                       = (fst (splitext (videofile_name (self st))), ".bak"))
        by (rewrite <- Hx; now destruct (splitext _)).
      rewrite (reversion_revert_step location frame_tool st _ Hv Hsplit).
      now rewrite rename_and_save_frame.
    + now rewrite (reversion_revert_corrupted location frame_tool st Hv Hx).
  - destruct (reversion_advance_step location frame_tool st) as (k & _ & _ & ->).
    rewrite rename_and_save_frame; [reflexivity | exact Hs | apply Hd | exact Hp].
Qed.

Lemma rename_and_save_no_extraction (newname : string) (st : state) :
  extraction_calls (trace (snd (rename_and_save' newname st)))
  = extraction_calls (trace st).
Proof.
  assert (Hren : forall c,
    extraction_calls (trace (renamed_state location st newname c))
    = extraction_calls (trace st)).
  { intros c. cbv [renamed_state]. destruct (path_exists _ _); cbn [trace];
      rewrite extraction_calls_app; cbv [extraction_calls]; simpl; lia. }
  destruct (rename_and_save_cases location frame_tool newname st)
    as [(e & _ & ->)|[(c & _ & ->)|[(c & _ & _ & ->)|(c & _ & _ & ->)]]];
    cbn [snd logged trace].
  - rewrite extraction_calls_app. cbv [extraction_calls]. simpl. lia.
  - rewrite !extraction_calls_app. cbv [extraction_calls]. simpl. lia.
  - apply (Hren c).
  - apply Hren.
Qed.

(** X15. [reversion] never calls the frame extraction: whatever a run does,
    the poster it removes is not made again by it. *)
Theorem reversion_never_extracts (revert : bool) (st : state) :
  extraction_calls (trace (snd (reversion' revert st))) = extraction_calls (trace st).
Proof.
  destruct revert.
  - destruct (Z.eq_dec (version (self st)) 0%Z) as [Hv|Hv].
    { rewrite (terminal_revert_run location frame_tool st Hv).
      destruct (model_delete_shape (snd (delete_files' st))) as (_ & _ & _ & ->).
      rewrite extraction_calls_app.
      destruct (delete_files_cases location frame_tool st)
        as [[-> _]|(c & _ & _ & [[-> _]|[[-> _]| ->]])]; cbn [snd logged trace];
        rewrite ?extraction_calls_app; cbv [extraction_calls]; simpl; lia. }
    destruct (string_dec (snd (splitext (videofile_name (self st)))) ".bak")
      as [Hx|Hx].
    + assert (Hsplit : splitext (videofile_name (self st))
                       = (fst (splitext (videofile_name (self st))), ".bak"))
        by (rewrite <- Hx; now destruct (splitext _)).
      rewrite (reversion_revert_step location frame_tool st _ Hv Hsplit).
      now rewrite rename_and_save_no_extraction.
    + now rewrite (reversion_revert_corrupted location frame_tool st Hv Hx).
  - destruct (reversion_advance_step location frame_tool st) as (k & _ & _ & ->).
    now rewrite rename_and_save_no_extraction.
Qed.

(** *** What a completed run has established *)

(** X16. After an advance, or a revert from a version other than 0, that
    returns normally, the file of the record exists at the path of its new
    name, nothing is left at the old path nor at the path of the old poster,
    the persisted row is the record as it is in memory, and the gloss is the
    same. *)
Theorem completed_reversion_keeps_record_on_disk (revert : bool) (st : state) :
  negb revert || negb (version (self st) =? 0)%Z = true ->
  fst (reversion' revert st) = Return tt ->
  let st' := snd (reversion' revert st) in
  path_exists (files st') (src_of st') = true /\
  files st' !! src_of st = None /\
  files st' !! swap_ext (src_of st) = None /\
  row st' = Some (self st') /\
  gloss_id (self st') = gloss_id (self st).
Proof.
  intros Hnt Hret st'. unfold st'. clear st'. destruct revert.
  - cbn [negb orb] in Hnt. apply negb_true_iff, Z.eqb_neq in Hnt.
    destruct (string_dec (snd (splitext (videofile_name (self st)))) ".bak")
      as [Hx|Hx].
    2:{ rewrite (reversion_revert_corrupted location frame_tool st Hnt Hx) in Hret.
        discriminate. }
    pose proof Hx as Hch. apply chained_iff_splitext in Hch
      as (a & c & b & Hname & Hc & Hs & Hb).
    assert (Hsplit : splitext (videofile_name (self st))
                     = (a +:+ String c b, ".bak"))
      by (rewrite Hname; now apply splitext_chained).
    rewrite (reversion_revert_step location frame_tool st _ Hnt Hsplit) in Hret |- *.
    destruct (rename_and_save_cases location frame_tool (a +:+ String c b)
                (at_version (version (self st) - 1) st))
      as [(e & _ & E)|[(content & _ & E)|[(content & _ & _ & E)
                                          |(content & Hsrc & _ & E)]]];
      rewrite E in Hret |- *; try discriminate.
    cbn [snd]. rewrite renamed_state_row, renamed_state_self.
    cbn [at_version self gloss_id version videofile_name].
    repeat split.
    + apply path_exists_true. exists content.
      apply (renamed_state_dst location (at_version _ st)).
      cbn [at_version self videofile_name]. rewrite Hname.
      rewrite swap_ext_join_bak by assumption. now apply app_neq_self.
    + apply (renamed_state_src location (at_version _ st)).
      cbn [at_version self videofile_name]. rewrite Hname, join_stem.
      intros E'. symmetry in E'. revert E'. now apply app_neq_self.
    + apply (renamed_state_poster_gone (at_version _ st)).
  - destruct (reversion_advance_step location frame_tool st)
      as (k & Hall & Hfree & Hrun).
    rewrite Hrun in Hret |- *.
    destruct (rename_and_save_cases location frame_tool
                (bak_chain k (videofile_name (self st)))
                (at_version (version (self st) + Z.of_nat k) st))
      as [(e & _ & E)|[(content & _ & E)|[(content & _ & _ & E)
                                          |(content & Hsrc & _ & E)]]];
      rewrite E in Hret |- *; try discriminate.
    cbn [at_version self files videofile_name] in Hsrc.
    assert (Hk : exists k', k = S k').
    { destruct k as [|k']; [|now exists k'].
      apply path_exists_false in Hfree. cbv [candidate bak_chain] in Hfree.
      congruence. }
    destruct Hk as [k' ->].
    cbn [snd]. rewrite renamed_state_row, renamed_state_self.
    cbn [at_version self gloss_id version videofile_name].
    repeat split.
    + apply path_exists_true. exists content.
      apply (renamed_state_dst location (at_version _ st)).
      apply swap_ext_not_backup.
    + apply (renamed_state_src location (at_version _ st)).
      cbn [at_version self videofile_name]. intros E'.
      apply path_exists_false in Hfree. cbv [candidate] in Hfree.
      rewrite E' in Hfree. congruence.
    + apply (renamed_state_poster_gone (at_version _ st)).
Qed.

(** *** Deleting the files *)

(** X17. [delete_files] never raises: whatever fails inside it, it returns.
    It leaves the record and its persisted row alone, creates no file,
    touches no file other than the video and its poster, and makes no call
    other than the unlink of one or the other. *)
Theorem delete_files_is_best_effort (st : state) :
  fst (delete_files' st) = Return tt /\
  self (snd (delete_files' st)) = self st /\
  row (snd (delete_files' st)) = row st /\
  files (snd (delete_files' st)) ⊆ files st /\
  (forall p, p <> src_of st -> p <> swap_ext (src_of st) ->
     files (snd (delete_files' st)) !! p = files st !! p) /\
  exists evs,
    trace (snd (delete_files' st)) = (trace st ++ evs)%list /\
    Forall (fun e => e = EvUnlink (src_of st) \/ e = EvUnlink (swap_ext (src_of st)))
      evs.
Proof.
  split; [|split; [|split; [|split; [|split]]]].
  - apply delete_files_returns.
  - apply delete_files_returns.
  - apply delete_files_returns.
  - destruct (delete_files_cases location frame_tool st)
      as [[-> _]|(c & _ & _ & [[-> _]|[[-> _]| ->]])]; cbn [snd logged files].
    + reflexivity.
    + apply delete_subseteq.
    + apply delete_subseteq.
    + etransitivity; apply delete_subseteq.
  - intros p. apply delete_files_frame.
  - destruct (delete_files_cases location frame_tool st)
      as [[-> _]|(c & _ & _ & [[-> _]|[[-> _]| ->]])]; cbn [snd logged trace].
    + exists [EvUnlink (src_of st)]. split; [reflexivity|].
      repeat constructor.
    + exists [EvUnlink (src_of st)]. split; [reflexivity|].
      repeat constructor.
    + exists [EvUnlink (src_of st); EvUnlink (swap_ext (src_of st))].
      split; [now rewrite <- List.app_assoc|].
      constructor; [now left|]. constructor; [now right | constructor].
    + exists [EvUnlink (src_of st); EvUnlink (swap_ext (src_of st))].
      split; [reflexivity|].
      constructor; [now left|]. constructor; [now right | constructor].
Qed.

(** X18. With the video file in place and nothing protected, [delete_files]
    leaves neither the video nor its poster on disk, whether or not there was
    a poster. *)
Theorem delete_files_removes_video_and_poster (st : state) (content : string) :
  files st !! src_of st = Some content ->
  protected st = ∅ ->
  fst (delete_files' st) = Return tt /\
  path_exists (files (snd (delete_files' st))) (src_of st) = false /\
  path_exists (files (snd (delete_files' st))) (swap_ext (src_of st)) = false.
Proof.
  intros Hsrc Hp.
  destruct (delete_files_removes_both location frame_tool st content Hsrc Hp)
    as [H1 H2].
  split; [apply delete_files_returns|].
  split; now apply path_exists_false.
Qed.

(** X19. When the unlink of the video fails, because the file is missing or
    may not be removed, [delete_files] stops there: it returns normally, the
    file system is as it was, and the unlink of the poster is not tried. *)
Theorem delete_files_stops_at_first_failure (st : state) :
  negb (path_exists (files st) (src_of st))
  || bool_decide (FilePath (src_of st) ∈ protected st) = true ->
  delete_files' st = (Return tt, logged (EvUnlink (src_of st)) st).
Proof.
  intros H.
  destruct (delete_files_cases location frame_tool st)
    as [[E _]|(c & Hc & Hp & _)]; [exact E|].
  exfalso. rewrite Hp in H.
  assert (path_exists (files st) (src_of st) = true)
    by (apply path_exists_true; now exists c).
  rewrite H0 in H. discriminate.
Qed.

(** X20. The revert of a record at version 0 first deletes the files, which
    cannot fail, then deletes the row. In every case the record in memory
    stays as it is, nothing is renamed or saved, no file is created and no
    file other than the video and its poster is touched, and the delete of
    the row is the last call made. When the record has a row and the store
    accepts the delete, the call returns and the row is gone; when the record
    has no row, or the store refuses, the exception of the delete comes out,
    after the files have been dealt with, and the row is as it was. *)
Theorem terminal_revert_outcomes (st : state) :
  version (self st) = 0%Z ->
  let st' := snd (reversion' true st) in
  self st' = self st /\
  files st' = files (snd (delete_files' st)) /\
  files st' ⊆ files st /\
  (forall p, p <> videofile_path location (self st) ->
     p <> swap_ext (videofile_path location (self st)) ->
     files st' !! p = files st !! p) /\
  (exists evs,
     trace st' = (trace st ++ evs ++ [EvDelete])%list /\
     forallb (fun e => negb (is_rename_or_save e)) evs = true) /\
  match row st with
  | None => fst (reversion' true st) = Raise AssertionError /\ row st' = None
  | Some _ =>
      if bool_decide (MetadataStore ∈ protected st)
      then fst (reversion' true st) = Raise DatabaseError /\ row st' = row st
      else fst (reversion' true st) = Return tt /\ row st' = None
  end.
Proof.
  intros Hv st'. unfold st'. clear st'.
  destruct (terminal_revert_deletes_record location frame_tool st Hv)
    as (Hself & Hevs & Hout).
  split; [exact Hself|].
  assert (Hfiles : files (snd (reversion' true st)) = files (snd (delete_files' st))).
  { rewrite (terminal_revert_run location frame_tool st Hv).
    now destruct (model_delete_shape (snd (delete_files' st))) as (_ & -> & _). }
  split; [exact Hfiles|]. rewrite Hfiles.
  split; [|split; [|split; [exact Hevs | exact Hout]]].
  - destruct (delete_files_cases location frame_tool st)
      as [[-> _]|(c & _ & _ & [[-> _]|[[-> _]| ->]])]; cbn [snd logged files].
    + reflexivity.
    + apply delete_subseteq.
    + apply delete_subseteq.
    + etransitivity; apply delete_subseteq.
  - intros p. apply delete_files_frame.
Qed.

End VersionChainMore.

(** *** The properties above on the concrete installation *)

Lemma revert_raises_iff_not_chained_witness :
  fst (reversion media_root tool_ok true st_lost_backup) <> Raise ValueError.
Proof.
  intros H.
  apply (proj1 (revert_raises_iff_not_chained media_root tool_ok st_lost_backup
                  ltac:(discriminate)) H).
  exists "", "x"%char, ".mp4".
  repeat split; try discriminate; simpl; intuition discriminate.
Defined.

Lemma revert_restores_previous_name_witness :
  fst (reversion media_root tool_ok true st_backed_up) = Return tt /\
  self (snd (reversion media_root tool_ok true st_backed_up))
  = mkGlossVideo "gloss-1" 0 "x.mp4".
Proof.
  destruct (revert_restores_previous_name media_root tool_ok st_backed_up
              "" ".mp4" "video" "x") as (H1 & H2 & _);
    [reflexivity ..|].
  split; [exact H1 | exact H2].
Defined.

Lemma advance_then_revert_round_trip_witness :
  self (snd ((reversion media_root tool_ok false ;; reversion media_root tool_ok true)
               st_x_only)) = self st_x_only /\
  files (snd ((reversion media_root tool_ok false ;; reversion media_root tool_ok true)
               st_x_only)) !! "/media/x.mp4" = Some "video".
Proof.
  destruct (advance_then_revert_round_trip media_root tool_ok st_x_only
              "" ".mp4" "video" "x") as (_ & H2 & _ & H4 & _);
    [reflexivity ..|].
  split; [exact H2 | exact H4].
Defined.

Lemma revert_then_advance_round_trip_witness :
  self (snd ((reversion media_root tool_ok true ;; reversion media_root tool_ok false)
               st_backed_up)) = self st_backed_up /\
  files (snd ((reversion media_root tool_ok true ;; reversion media_root tool_ok false)
               st_backed_up)) !! "/media/x.mp4.bak" = Some "video".
Proof.
  destruct (revert_then_advance_round_trip media_root tool_ok st_backed_up
              "" ".mp4" "video" "x") as (_ & H2 & _ & H4 & _);
    [reflexivity ..|].
  split; [exact H2 | exact H4].
Defined.


(** The save that fails after the rename: the file is moved and the record
    renamed in memory, the row still holds the old name. *)
Example advance_refused_save :
  let r := reversion media_root tool_ok false st_store_down in
  fst r = Raise DatabaseError /\
  self (snd r) = mkGlossVideo "gloss-1" 1 "x.mp4.bak" /\
  row (snd r) = Some (mkGlossVideo "gloss-1" 0 "x.mp4") /\
  map_to_list (files (snd r)) = [("/media/x.mp4.bak", "video")].
Proof. vm_compute. repeat split. Qed.

Lemma reversion_leaves_other_files_witness :
  files (snd (reversion media_root tool_ok true st_with_bystander)) !! "/media/y.mp4"
  = Some "other".
Proof.
  apply (reversion_leaves_other_files media_root tool_ok true st_with_bystander
           "/media/y.mp4"); discriminate.
Defined.

(** The run of that witness: the video is renamed and the poster next to its
    old path removed, the other video stays. *)
Example revert_next_to_bystander :
  let r := reversion media_root tool_ok true st_with_bystander in
  fst r = Return tt /\
  files (snd r) !! "/media/x.mp4" = Some "video" /\
  files (snd r) !! "/media/x.mp4.bak" = None /\
  files (snd r) !! "/media/x.mp4.jpg" = None /\
  files (snd r) !! "/media/y.mp4" = Some "other".
Proof. vm_compute. repeat split. Qed.

Lemma completed_reversion_keeps_record_on_disk_witness :
  path_exists (files (snd (reversion media_root tool_ok false st_x_only)))
    "/media/x.mp4.bak" = true /\
  files (snd (reversion media_root tool_ok false st_x_only)) !! "/media/x.mp4" = None.
Proof.
  destruct (completed_reversion_keeps_record_on_disk media_root tool_ok false st_x_only)
    as (H1 & H2 & _); [reflexivity | vm_compute; reflexivity |].
  split; [exact H1 | exact H2].
Defined.

Lemma delete_files_removes_video_and_poster_witness :
  path_exists (files (snd (delete_files media_root tool_ok st_x_only))) "/media/x.mp4"
  = false.
Proof.
  destruct (delete_files_removes_video_and_poster media_root tool_ok st_x_only "video")
    as (_ & H2 & _); [reflexivity ..|].
  exact H2.
Defined.

Lemma delete_files_stops_at_first_failure_witness :
  delete_files media_root tool_ok st_orphan_poster
  = (Return tt, logged (EvUnlink "/media/x.mp4") st_orphan_poster).
Proof.
  apply (delete_files_stops_at_first_failure media_root tool_ok st_orphan_poster).
  reflexivity.
Defined.

Lemma terminal_revert_outcomes_witness :
  self (snd (reversion media_root tool_ok true st_x_only)) = self st_x_only /\
  fst (reversion media_root tool_ok true st_x_only) = Return tt /\
  row (snd (reversion media_root tool_ok true st_x_only)) = None.
Proof.
  destruct (terminal_revert_outcomes media_root tool_ok st_x_only)
    as (H1 & _ & _ & _ & _ & H6); [reflexivity|].
  split; [exact H1 | exact H6].
Defined.

(** A second terminal revert finds no row to delete. *)
Example terminal_revert_twice :
  fst ((reversion media_root tool_ok true ;; reversion media_root tool_ok true)
         st_x_only) = Raise AssertionError.
Proof. reflexivity. Qed.

(** ** The shape of the names [get_valid_name] answers *)

Module NamingShape.
Import PyStr PosixPath PyStrFacts PosixPathFacts NamingScheme PyStrMore NamingMore.

Lemma rstrip_all (c : ascii) (t : string) : all_char c t = true -> rstrip c t = "".
Proof.
  induction t as [|a t IH]; [reflexivity|]. simpl.
  intros H. apply andb_true_iff in H as [Ha Ht]. now rewrite (IH Ht), Ha.
Qed.

(** Stripping the separators at the end stops at the last other character. *)
Lemma rstrip_after (c x : ascii) (d t : string) :
  Ascii.eqb x c = false -> all_char c t = true ->
  rstrip c (d +:+ String x t) = d +:+ String x "".
Proof.
  intros Hx Ht. induction d as [|a d IH]; simpl.
  - now rewrite (rstrip_all _ _ Ht), Hx.
  - rewrite IH. now destruct d.
Qed.

Lemma all_char_app (c : ascii) (a b : string) :
  all_char c (a +:+ b) = all_char c a && all_char c b.
Proof.
  induction a as [|x a IH]; simpl; [reflexivity|].
  now rewrite IH, andb_assoc.
Qed.

Lemma split_at_last_sep (head base : string) :
  ~ has sep base ->
  split (head +:+ String sep base)
  = (if negb (all_char sep (head +:+ String sep ""))
     then rstrip sep (head +:+ String sep "") else head +:+ String sep "",
     base).
Proof.
  intros Hb. unfold split. rewrite (rfind_last sep head base Hb).
  replace (head +:+ String sep base) with ((head +:+ String sep "") +:+ base)
    by (now rewrite app_assoc).
  replace (Z.of_nat (String.length head) + 1)%Z with (len (head +:+ String sep ""))
    by (unfold len; rewrite length_app; simpl; lia).
  rewrite slice_to_app, slice_from_app.
  assert (String.eqb (head +:+ String sep "") "" = false) as ->
    by (now destruct head).
  reflexivity.
Qed.

(** A name whose directory part ends in a character other than the
    separator, then separators, then the base name. *)
Lemma split_nested (d slashes base : string) (c : ascii) :
  Ascii.eqb c sep = false -> all_char sep slashes = true -> ~ has sep base ->
  split ((d +:+ String c slashes) +:+ String sep base) = (d +:+ String c "", base).
Proof.
  intros Hc Hs Hb. rewrite (split_at_last_sep _ _ Hb).
  rewrite !app_assoc. change (String c slashes +:+ String sep "")
    with (String c (slashes +:+ String sep "")).
  assert (Ht : all_char sep (slashes +:+ String sep "") = true)
    by (rewrite all_char_app, Hs; reflexivity).
  rewrite all_char_app. cbn [all_char]. rewrite Hc, andb_false_r. cbn [negb].
  now rewrite rstrip_after.
Qed.

(** A name made of separators and a base name. *)
Lemma split_rooted (slashes base : string) :
  all_char sep slashes = true -> ~ has sep base ->
  split (slashes +:+ String sep base) = (slashes +:+ String sep "", base).
Proof.
  intros Hs Hb. rewrite (split_at_last_sep _ _ Hb).
  now rewrite all_char_app, Hs.
Qed.

Lemma placed_not_absolute (base : string) :
  ~ has sep base -> startswith_char sep (placed base) = false.
Proof.
  unfold placed. destruct base as [|a [|b r]]; [reflexivity| |]; simpl;
    intros H; destruct (Ascii.eqb_spec a sep); tauto.
Qed.

Lemma get_valid_name_split (name dir base : string) :
  split name = (dir, base) -> ~ has sep base ->
  get_valid_name name = join dir (placed base).
Proof.
  intros E Hb. unfold get_valid_name. rewrite E.
  now rewrite slice_to_2, (join_prefix_basename _ Hb).
Qed.

(** C9. [get_valid_name] is a function of the name alone. Whatever the
    directory part of the name, the base name (what follows the last
    separator) is put under a directory named after its first two characters,
    or after the whole base name when it has fewer than two, and an empty
    base name is left without such a directory: a bare base name [b] gives
    [pr/b]; a name [dir/b], where [dir] ends in a character other than the
    separator and may be followed by more than one separator, gives
    [dir/pr/b]; a name made of separators and [b] keeps its separators in
    front of [pr/b]. *)
Theorem get_valid_name_shape (d slashes base : string) (c : ascii) :
  Ascii.eqb c sep = false ->
  all_char sep slashes = true ->
  contains sep base = false ->
  partition_prefix base = take 2 base /\
  placed base
  = (if String.eqb base "" then "" else take 2 base +:+ String sep base) /\
  get_valid_name base = placed base /\
  get_valid_name ((d +:+ String c slashes) +:+ String sep base)
  = (d +:+ String c "") +:+ String sep (placed base) /\
  get_valid_name (slashes +:+ String sep base)
  = (slashes +:+ String sep "") +:+ placed base.
Proof.
  intros Hc Hs Hbase. pose proof (contains_false _ _ Hbase) as Hb.
  pose proof (placed_not_absolute base Hb) as Habs.
  assert (Hpre : partition_prefix base = take 2 base)
    by (destruct base as [|x [|y r]]; reflexivity).
  split; [exact Hpre|]. split; [unfold placed; now rewrite Hpre|].
  split; [|split].
  - rewrite (get_valid_name_split base "" base (split_no_sep _ Hbase) Hb).
    unfold join. now rewrite Habs.
  - rewrite (get_valid_name_split _ _ _ (split_nested d slashes base c Hc Hs Hb) Hb).
    unfold join. rewrite Habs.
    assert (String.eqb (d +:+ String c "") "" = false) as -> by (now destruct d).
    rewrite endswith_char_app by discriminate. cbn [endswith_char orb].
    now rewrite Hc.
  - rewrite (get_valid_name_split _ _ _ (split_rooted slashes base Hs Hb) Hb).
    unfold join. rewrite Habs.
    rewrite endswith_char_app by discriminate. cbn [endswith_char].
    rewrite Ascii.eqb_refl. now rewrite orb_true_r.
Qed.

Lemma get_valid_name_shape_witness :
  get_valid_name "12345.mp4" = "12/12345.mp4" /\
  get_valid_name "glossvideo/12345.mp4" = "glossvideo/12/12345.mp4" /\
  get_valid_name "glossvideo//a" = "glossvideo/a/a" /\
  get_valid_name "glossvideo/" = "glossvideo/".
Proof.
  split; [|split; [|split]].
  - apply (get_valid_name_shape "" "" "12345.mp4" "o"); reflexivity.
  - apply (get_valid_name_shape "glossvide" "" "12345.mp4" "o"); reflexivity.
  - apply (get_valid_name_shape "glossvide" "/" "a" "o"); reflexivity.
  - apply (get_valid_name_shape "glossvide" "" "" "o"); reflexivity.
Defined.

End NamingShape.
